(** * DevOpsBot: the retrieval-augmented solution engine

    A shallow embedding of [core/devops_ai_engine.py] and the properties
    its specification states about it.

    Conventions of the embedding.
    - Python [str] values are lists of characters ([text]).  The engine's
      character tests ([str.strip], [str.isdigit], [\w], [\s], [\d]) are
      modelled on the ASCII range, where they are fixed tables; a character
      above U+007F is an ordinary symbol (no space, no digit, no letter).
    - Python [float] values are IEEE 754 binary64 numbers, taken from
      [SpecFloat] with precision 53 and maximal exponent 1024; decimal
      text is converted with correct rounding (to nearest, ties to even),
      as [float()] does.
    - Exceptions are explicit: a computation returns [Ok v] or [Raise e].
    - The collaborators outside the repository (the LLM service, the
      vector index, the embedding model, the file system) are inputs of
      the functions that call them, given as the outcome of each call.
    - Of what the engine prints, the line of the handler of [main] is
      kept; the banners and progress lines are left out. *)

From Stdlib Require Import Ascii String.
From Stdlib Require Import ZArith List Bool Lia.
From Stdlib Require Import Sorting.Sorted Sorting.Permutation.
From Stdlib Require Import Floats.SpecFloat.
From Stdlib Require Import DecimalString.
Import ListNotations.

Local Open Scope Z_scope.

(** ** Exceptions *)

Module Py.

(** The exception classes the engine can meet.  All of them derive from
    [Exception]; [UnboundLocalError] derives from [NameError], which is
    neither a [ValueError] nor an [IndexError]. *)
Inductive exn : Type :=
| ValueError (msg : string)
| IndexError (msg : string)
| TypeError (msg : string)
| UnboundLocalError (variable : string)
| FileNotFoundError (path : string)
| RuntimeError (msg : string)
| ConnectionError (msg : string).

Inductive result (A : Type) : Type :=
| Ok (a : A)
| Raise (e : exn).

Arguments Ok {A} a.
Arguments Raise {A} e.

Definition bind {A B : Type} (c : result A) (k : A -> result B) : result B :=
  match c with
  | Ok a => k a
  | Raise e => Raise e
  end.

(** [try: body  except cls: handler] for a handler that names classes. *)
Definition try_except {A : Type} (body : result A) (catches : exn -> bool)
    (handler : exn -> result A) : result A :=
  match body with
  | Ok a => Ok a
  | Raise e => if catches e then handler e else Raise e
  end.

(** [except (ValueError, IndexError)] *)
Definition is_ValueError_or_IndexError (e : exn) : bool :=
  match e with
  | ValueError _ | IndexError _ => true
  | _ => false
  end.

(** [except Exception]: every class above derives from [Exception]. *)
Definition is_Exception (e : exn) : bool := true.

(** [str(e)] *)
Definition str_of_exn (e : exn) : string :=
  match e with
  | ValueError m | IndexError m | TypeError m | RuntimeError m
  | ConnectionError m => m
  | UnboundLocalError v => v
  | FileNotFoundError p => p
  end.

End Py.

Import Py.

Declare Scope py_scope.
Delimit Scope py_scope with py.
Notation "x <- c ;; k" := (bind c (fun x => k))
  (at level 61, c at next level, right associativity) : py_scope.
Notation "' pat <- c ;; k" := (bind c (fun x => match x with pat => k end))
  (at level 61, pat pattern, c at next level, right associativity) : py_scope.

(** ** Text *)

Definition text : Type := list ascii.

(** A literal of the source. *)
Definition lit (s : string) : text := list_ascii_of_string s.

Definition code (c : ascii) : N := N_of_ascii c.

Definition chr_eqb (a b : ascii) : bool := Ascii.eqb a b.

Fixpoint text_eqb (a b : text) : bool :=
  match a, b with
  | [], [] => true
  | x :: a', y :: b' => chr_eqb x y && text_eqb a' b'
  | _, _ => false
  end.

(** [str.isspace] on one character: TAB, LF, VT, FF, CR, the four
    separators FS, GS, RS, US, and the space. *)
Definition isspace (c : ascii) : bool :=
  let n := code c in
  ((9 <=? n) && (n <=? 13) || (28 <=? n) && (n <=? 32))%N.

(** [0-9] *)
Definition isdigit (c : ascii) : bool :=
  let n := code c in ((48 <=? n) && (n <=? 57))%N.

Definition isalpha (c : ascii) : bool :=
  let n := code c in
  ((65 <=? n) && (n <=? 90) || (97 <=? n) && (n <=? 122))%N.

(** [\w] of [re]: letters, digits and the underscore. *)
Definition is_word (c : ascii) : bool :=
  isalpha c || isdigit c || chr_eqb c "_"%char.

(** [str.upper] on one character. *)
Definition upper_chr (c : ascii) : ascii :=
  let n := code c in
  if ((97 <=? n) && (n <=? 122))%N then ascii_of_N (n - 32) else c.

Definition str_upper (s : text) : text := map upper_chr s.

Fixpoint lstrip (s : text) : text :=
  match s with
  | c :: s' => if isspace c then lstrip s' else s
  | [] => []
  end.

Definition rstrip (s : text) : text := rev (lstrip (rev s)).

(** [str.strip()] *)
Definition str_strip (s : text) : text := rstrip (lstrip s).

(** [sep in s] for a one-character [sep]. *)
Definition contains_chr (sep : ascii) (s : text) : bool :=
  existsb (chr_eqb sep) s.

(** [s.split(sep)] for a one-character separator: the pieces between the
    separators, empty pieces included; never an empty list. *)
Fixpoint str_split (sep : ascii) (s : text) : list text :=
  match s with
  | [] => [[]]
  | c :: s' =>
      if chr_eqb c sep then [] :: str_split sep s'
      else match str_split sep s' with
           | p :: ps => (c :: p) :: ps
           | [] => [[c]]
           end
  end.

(** [s.split(sep, maxsplit)]: at most [maxsplit] cuts, the rest of the
    text is the last piece. *)
Fixpoint str_split_max (sep : ascii) (maxsplit : nat) (s : text) : list text :=
  match maxsplit with
  | O => [s]
  | S m =>
      (fix cut (pre s : text) {struct s} : list text :=
         match s with
         | [] => [rev pre]
         | c :: s' =>
             if chr_eqb c sep then rev pre :: str_split_max sep m s'
             else cut (c :: pre) s'
         end) [] s
  end.

(** [s.isdigit()]: at least one character and all of them digits. *)
Definition str_isdigit (s : text) : bool :=
  match s with
  | [] => false
  | _ => forallb isdigit s
  end.

Definition digit_val (c : ascii) : Z := Z.of_N (code c) - 48.

(** The value of a run of decimal digits, read left to right. *)
Definition digits_val (s : text) : Z :=
  fold_left (fun acc c => 10 * acc + digit_val c) s 0.

(** [sys.get_int_max_str_digits()], CPython's default. *)
Definition int_max_str_digits : nat := 4300.

(** [int(s)] on text that passed [isdigit]: the decimal value, or
    [ValueError] past the interpreter's digit limit (or on anything that
    is not a digit run). *)
Definition py_int (s : text) : result Z :=
  if str_isdigit s then
    if (int_max_str_digits <? length s)%nat
    then Raise (ValueError "Exceeds the limit for integer string conversion")
    else Ok (digits_val s)
  else Raise (ValueError "invalid literal for int()").

(** ** Floating-point numbers *)

Definition float : Type := spec_float.

Definition prec : Z := 53.
Definition emax : Z := 1024.

Definition fleb : float -> float -> bool := SFleb.
Definition fltb : float -> float -> bool := SFltb.
Definition feqb : float -> float -> bool := SFeqb.

Definition is_nan (x : float) : bool :=
  match x with
  | S754_nan => true
  | _ => false
  end.

(** The binary64 number nearest to [(-1)^neg * m * 10^e10], for [0 <= m]. *)
Definition float_of_decimal (neg : bool) (m e10 : Z) : float :=
  match m with
  | Zpos p =>
      if 0 <=? e10
      then binary_round prec emax neg (Z.to_pos (m * 10 ^ e10)) 0
      else SFdiv prec emax (S754_finite neg p 0)
                 (S754_finite false (Z.to_pos (10 ^ (- e10))) 0)
  | _ => S754_zero neg
  end.

(** The longest prefix of characters satisfying [p], and the rest. *)
Fixpoint span (p : ascii -> bool) (s : text) : text * text :=
  match s with
  | c :: s' =>
      if p c then let '(a, b) := span p s' in (c :: a, b) else ([], s)
  | [] => ([], [])
  end.

Definition take_sign (s : text) : bool * text :=
  match s with
  | c :: r =>
      if chr_eqb c "-"%char then (true, r)
      else if chr_eqb c "+"%char then (false, r)
      else (false, s)
  | [] => (false, s)
  end.

(** PEP 515: an underscore may stand between two digits only; the
    digits are then read without it. *)
Fixpoint strip_underscores (prev : ascii) (s : text) : option text :=
  match s with
  | [] => if chr_eqb prev "_"%char then None else Some []
  | c :: s' =>
      if chr_eqb c "_"%char then
        if isdigit prev then strip_underscores c s' else None
      else if chr_eqb prev "_"%char && negb (isdigit c) then None
      else option_map (cons c) (strip_underscores c s')
  end.

(** [digits [. digits] [(e|E) [sign] digits]] with a digit in the
    mantissa; the whole text must be consumed. *)
Definition parse_decimal (neg : bool) (s : text) : option float :=
  let '(ip, r1) := span isdigit s in
  let '(fp, r2) :=
    match r1 with
    | c :: r => if chr_eqb c "."%char then span isdigit r else ([], r1)
    | [] => ([], r1)
    end in
  match ip ++ fp with
  | [] => None
  | mant =>
      let m := digits_val mant in
      let scale := - Z.of_nat (length fp) in
      match r2 with
      | [] => Some (float_of_decimal neg m scale)
      | c :: r3 =>
          if chr_eqb (upper_chr c) "E"%char then
            let '(eneg, r4) := take_sign r3 in
            if str_isdigit r4
            then Some (float_of_decimal neg m
                         ((if eneg then - digits_val r4 else digits_val r4)
                          + scale))
            else None
          else None
      end
  end.

(** [inf], [infinity] and [nan], in any case, after the sign. *)
Definition parse_inf_or_nan (neg : bool) (s : text) : option float :=
  let u := str_upper s in
  if text_eqb u (lit "INF") || text_eqb u (lit "INFINITY")
  then Some (S754_infinity neg)
  else if text_eqb u (lit "NAN") then Some S754_nan
  else None.

(** [float(s)] for a [str]: surrounding whitespace is dropped, then the
    text is a signed decimal number, an infinity or a NaN, else
    [ValueError]. *)
Definition py_float (s : text) : result float :=
  match strip_underscores zero (str_strip s) with
  | None => Raise (ValueError "could not convert string to float")
  | Some t =>
      let '(neg, r) := take_sign t in
      match parse_inf_or_nan neg r with
      | Some x => Ok x
      | None =>
          match parse_decimal neg r with
          | Some x => Ok x
          | None => Raise (ValueError "could not convert string to float")
          end
      end
  end.

(** The literal [0.6] of [create_solution_entry], read as [float()] reads
    it: the binary64 number 5404319552844595 * 2^-53, just under 6/10. *)
Definition threshold : float :=
  Eval vm_compute in float_of_decimal false 6 (-1).

(** ** Knowledge rows and solutions *)

(** The values a knowledge row holds: text, an integer id, or [None]
    (a NULL column of the database). *)
Inductive pyval : Type :=
| PNone
| PInt (z : Z)
| PStr (s : text).

(** A row [(doc_id, failure, root_cause, solution)]: a tuple, given by its
    items.  That it is a tuple is its type here; its length is not. *)
Definition doc : Type := list pyval.

(** The dictionary [create_solution_entry] builds, a field per key. *)
Record solution : Type := {
  sol_failure : pyval;
  sol_root_cause : pyval;
  sol_solution : pyval;
  confidence : float;
  reason : text;
  global_index : Z
}.

Definition len {A : Type} (l : list A) : Z := Z.of_nat (length l).

(** [create_solution_entry]: [None] unless the confidence passes the
    threshold test, the translated index is a position of
    [retrieved_docs] and the row there has four items. *)
Definition create_solution_entry (local_idx : Z) (conf : float) (why : text)
    (chunk_offset : Z) (retrieved_docs : list doc) : option solution :=
  if fleb conf threshold then None
  else
    let global_idx := chunk_offset + local_idx in
    if (0 <=? global_idx) && (global_idx <? len retrieved_docs) then
      match nth_error retrieved_docs (Z.to_nat global_idx) with
      | Some d =>
          if 4 <=? len d then
            Some {| sol_failure := nth 1 d PNone;
                    sol_root_cause := nth 2 d PNone;
                    sol_solution := nth 3 d PNone;
                    confidence := conf;
                    reason := why;
                    global_index := global_idx |}
          else None
      | None => None
      end
    else None.

(** ** Parsing the reply of the LLM *)

(** The three local variables of [parse_llm_response] that live across
    the iterations of its loop; [None] while unbound. *)
Record locals : Type := {
  var_local_idx : option Z;
  var_confidence : option float;
  var_reason : option text
}.

Definition unbound : locals :=
  {| var_local_idx := None; var_confidence := None; var_reason := None |}.

(** Reading a local variable; an unbound one raises. *)
Definition read_var {A : Type} (name : string) (v : option A) : result A :=
  match v with
  | Some a => Ok a
  | None => Raise (UnboundLocalError name)
  end.

(** What the branch of a line decides: go on to build the entry, or
    [continue] with the next line. *)
Inductive flow : Type := Proceed | Continue.

(** The three assignments of either branch, in the order of the source:
    a failing [float()] leaves [local_idx] already overwritten. *)
Definition assign_fields (vars : locals) (idx_text conf_text why : text)
    : locals * result flow :=
  match py_int idx_text with
  | Raise e => (vars, Raise e)
  | Ok i =>
      let vars1 := {| var_local_idx := Some i;
                      var_confidence := var_confidence vars;
                      var_reason := var_reason vars |} in
      match py_float conf_text with
      | Raise e => (vars1, Raise e)
      | Ok c =>
          ({| var_local_idx := Some i;
              var_confidence := Some c;
              var_reason := Some why |}, Ok Proceed)
      end
  end.

(** The [if '|' in line: ... else: ...] statement.  The pipe branch has
    no [else] for a line it does not accept: control falls through to
    the call of [create_solution_entry]. *)
Definition split_line (vars : locals) (line : text) : locals * result flow :=
  if contains_chr "|"%char line then
    let parts := map str_strip (str_split "|"%char line) in
    if (3 <=? len parts) && str_isdigit (nth 0 parts []) then
      assign_fields vars (nth 0 parts []) (nth 1 parts []) (nth 2 parts [])
    else (vars, Ok Proceed)
  else
    let parts := str_split_max " "%char 2 line in
    if (2 <=? len parts) && str_isdigit (nth 0 parts []) then
      assign_fields vars (nth 0 parts []) (nth 1 parts [])
        (if 2 <? len parts then nth 2 parts [] else lit "Selected by LLM")
    else (vars, Ok Continue).

(** The body of the [try] for one stripped, non-empty line: the locals
    after it, and the entry to append, if any. *)
Definition parse_line (vars : locals) (line : text) (chunk_offset : Z)
    (retrieved_docs : list doc) : locals * result (option solution) :=
  let '(vars', r) := split_line vars line in
  (vars',
   match r with
   | Raise e => Raise e
   | Ok Continue => Ok None
   | Ok Proceed =>
       (i <- read_var "local_idx" (var_local_idx vars') ;;
        c <- read_var "confidence" (var_confidence vars') ;;
        w <- read_var "reason" (var_reason vars') ;;
        Ok (create_solution_entry i c w chunk_offset retrieved_docs))%py
   end).

(** The [for line in response.split(newline)] loop. *)
Fixpoint parse_lines (vars : locals) (lines : list text) (chunk_offset : Z)
    (retrieved_docs : list doc) (solutions : list solution)
    : result (list solution) :=
  match lines with
  | [] => Ok solutions
  | raw :: rest =>
      match str_strip raw with
      | [] => parse_lines vars rest chunk_offset retrieved_docs solutions
      | line =>
          let '(vars', r) := parse_line vars line chunk_offset retrieved_docs in
          match r with
          | Ok (Some entry) =>
              parse_lines vars' rest chunk_offset retrieved_docs
                (solutions ++ [entry])
          | Ok None =>
              parse_lines vars' rest chunk_offset retrieved_docs solutions
          | Raise e =>
              if is_ValueError_or_IndexError e
              then parse_lines vars' rest chunk_offset retrieved_docs solutions
              else Raise e
          end
      end
  end.

Definition newline : ascii := ascii_of_N 10.

Definition parse_llm_response (response : text) (chunk : list text)
    (chunk_offset : Z) (retrieved_docs : list doc) : result (list solution) :=
  if text_eqb (str_strip (str_upper response)) (lit "NONE") then Ok []
  else parse_lines unbound (str_split newline response) chunk_offset
         retrieved_docs [].

(** ** Ranking *)

Section ListSort.
Context {A : Type}.
Variable lt : A -> A -> bool.

(** The place of a new item in an ascending run: behind every item it
    is not smaller than, so behind its equals. *)
Fixpoint insert_right (x : A) (l : list A) : list A :=
  match l with
  | [] => [x]
  | y :: l' => if lt x y then x :: l else y :: insert_right x l'
  end.

(** A stable ascending sort that compares with [<] only. *)
Definition sort_ascending (l : list A) : list A :=
  fold_left (fun acc x => insert_right x acc) l [].

(** [list.sort(reverse=True)]: the list is reversed, sorted ascending
    and stably, and reversed again, which keeps equal items in their
    original order.  Where [<] orders the keys, every stable sort
    returns this list; among keys that [<] does not order (a NaN) the
    place of an item depends on the merge steps of the interpreter, and
    only that the result is a rearrangement of the list is relied on. *)
Definition list_sort_reverse (l : list A) : list A :=
  rev (sort_ascending (rev l)).

(** No item is smaller than an earlier one. *)
Definition ascending : list A -> Prop :=
  StronglySorted (fun a b => lt b a = false).

(** [x] and [c] compare equal: neither is smaller. *)
Definition same_key (c x : A) : bool := negb (lt c x) && negb (lt x c).
End ListSort.

(** The [key] of the sort compared with [<] of [float]. *)
Definition confidence_lt (a b : solution) : bool :=
  fltb (confidence a) (confidence b).

(** [display_hackathon_results] sorts the list it is given in place;
    the value here is the list after the call.  An empty list is left
    alone; every item of a non-empty one is a dictionary with the key
    [confidence]. *)
Definition display_hackathon_results (final_solutions : list solution)
    : list solution :=
  match final_solutions with
  | [] => []
  | _ => list_sort_reverse confidence_lt final_solutions
  end.

(** ** Chunked scoring *)

(** [enumerate(l)] counted from [start]. *)
Fixpoint enumerate_from {A : Type} (start : Z) (l : list A) : list (Z * A) :=
  match l with
  | [] => []
  | a :: l' => (start, a) :: enumerate_from (start + 1) l'
  end.

Definition enumerate {A : Type} (l : list A) : list (Z * A) :=
  enumerate_from 0 l.

(** What the prompt of a chunk is built from: the issue, and the texts
    of the chunk under their local indices ([solutions_text]). *)
Record prompt : Type := {
  prompt_issue : text;
  prompt_solutions : list (Z * text)
}.

(** [range(0, stop, step)] for a step that is not negative: the
    multiples of [step] below [stop]; a zero step raises. *)
Definition py_range (stop step : nat) : result (list nat) :=
  match step with
  | O => Raise (ValueError "range() arg 3 must not be zero")
  | _ => Ok (map (fun k => k * step)%nat (seq 0 ((stop + step - 1) / step)))
  end.

(** [l[lo:hi]] for [0 <= lo]. *)
Definition slice {A : Type} (l : list A) (lo hi : nat) : list A :=
  firstn (hi - lo) (skipn lo l).

(** The line used when the LLM cannot be reached. *)
Definition fallback_response : text :=
  lit "0 0.8 Fallback selection - keyword matching applied".

(** The reply for one chunk: the stripped content of the answer, or the
    fallback line when the call raises. *)
Definition raw_response_of (answer : result text) : result text :=
  try_except (content <- answer ;; Ok (str_strip content))%py
    is_Exception (fun _ => Ok fallback_response).

Section Scorer.
(** [ollama.chat] for the chunk that starts at the given position, on
    the prompt built for it: the content of the message, or the
    exception. *)
Variable ollama_chat : nat -> prompt -> result text.

Variable cleaned_retrieved_docs : list text.
Variable issue_description : text.
Variable retrieved_docs : list doc.
Variable chunk_size : nat.

Definition chunk_end (chunk_start : nat) : nat :=
  Nat.min (chunk_start + chunk_size) (length cleaned_retrieved_docs).

Definition chunk_at (chunk_start : nat) : list text :=
  slice cleaned_retrieved_docs chunk_start (chunk_end chunk_start).

(** The [for chunk_start in range(...)] loop; [final_solutions] is
    extended chunk by chunk. *)
Fixpoint score_chunks (starts : list nat) (final_solutions : list solution)
    : result (list solution) :=
  match starts with
  | [] => Ok final_solutions
  | chunk_start :: rest =>
      let chunk := chunk_at chunk_start in
      let solutions_text := enumerate chunk in
      (raw_response <-
         raw_response_of
           (ollama_chat chunk_start
              {| prompt_issue := issue_description;
                 prompt_solutions := solutions_text |}) ;;
       solutions <-
         parse_llm_response raw_response chunk (Z.of_nat chunk_start)
           retrieved_docs ;;
       score_chunks rest (final_solutions ++ solutions))%py
  end.

(** [query_llm_model]; the list it returns is the one that
    [display_hackathon_results] has sorted. *)
Definition query_llm_model : result (list solution) :=
  match retrieved_docs with
  | [] => Ok []
  | _ =>
      (starts <- py_range (length cleaned_retrieved_docs) chunk_size ;;
       final_solutions <- score_chunks starts [] ;;
       Ok (display_hackathon_results final_solutions))%py
  end.
End Scorer.

(** ** Text normalisation *)

Definition asterisk : ascii := "*"%char.
Definition full_stop : ascii := "."%char.

(** [re.sub(r'\*', '', text)] *)
Definition drop_asterisks (s : text) : text :=
  filter (fun c => negb (chr_eqb c asterisk)) s.

(** [text.replace(newline, ', ')] *)
Definition replace_newlines (s : text) : text :=
  flat_map (fun c => if chr_eqb c newline then lit ", " else [c]) s.

Definition is_word_at (c : option ascii) : bool :=
  match c with
  | Some c => is_word c
  | None => false
  end.

(** The pattern [\b\d+\.(?=\w)] tried at the head of [s], where [prev]
    is the character before it: the number of characters it matches.
    The run of digits is the longest one, for a shorter one is followed
    by a digit and not by the full stop. *)
Definition list_marker (prev : option ascii) (s : text) : option nat :=
  if xorb (is_word_at prev) (is_word_at (hd_error s)) then
    let '(ds, r) := span isdigit s in
    match ds, r with
    | _ :: _, dot :: c :: _ =>
        if chr_eqb dot full_stop && is_word c
        then Some (S (length ds)) else None
    | _, _ => None
    end
  else None.

(** [re.sub(r'\b\d+\.(?=\w)', '', text)]: the text is scanned from the
    left; a match is dropped and the scan goes on behind it.  [skip]
    counts the characters of the current match still to drop. *)
Fixpoint drop_list_markers (prev : option ascii) (skip : nat) (s : text)
    : text :=
  match s with
  | [] => []
  | c :: s' =>
      match skip with
      | S k => drop_list_markers (Some c) k s'
      | O =>
          match list_marker prev s with
          | Some n => drop_list_markers (Some c) (n - 1) s'
          | None => c :: drop_list_markers (Some c) 0 s'
          end
      end
  end.

(** [re.sub(r'[^\w\s]', '', text)] *)
Definition drop_punctuation (s : text) : text :=
  filter (fun c => is_word c || isspace c) s.

(** [clean_text]: [None] gives the empty text; anything that is neither
    [None] nor text makes [re.sub] raise. *)
Definition clean_text (v : pyval) : result text :=
  match v with
  | PNone => Ok []
  | PStr s =>
      Ok (drop_punctuation
            (drop_list_markers None 0
               (replace_newlines (drop_asterisks s))))
  | PInt _ => Raise (TypeError "expected string or bytes-like object")
  end.

(** ** Knowledge base *)

Record issue : Type := {
  kb_failure : pyval;
  kb_root_cause : pyval;
  kb_solution : pyval
}.

Definition create_devops_knowledge_base : list issue :=
  [
    {| kb_failure := PStr (lit "Docker Build Failure - Permission Denied");
       kb_root_cause := PStr (lit "Docker build fails with permission denied error when user lacks proper Docker daemon access rights");
       kb_solution := PStr (lit "1. Add user to docker group: sudo usermod -aG docker $USER 2. Restart Docker service: sudo systemctl restart docker 3. Check Docker daemon permissions: sudo chmod 666 /var/run/docker.sock") |};
    {| kb_failure := PStr (lit "Jenkins Build Timeout");
       kb_root_cause := PStr (lit "Jenkins builds exceed configured timeout limits due to resource constraints or inefficient build processes");
       kb_solution := PStr (lit "1. Increase build timeout in Jenkins job configuration 2. Optimize build steps and remove unnecessary operations 3. Check system resources (CPU, memory, disk) 4. Review build logs for bottlenecks") |};
    {| kb_failure := PStr (lit "Kubernetes Pod CrashLoopBackOff");
       kb_root_cause := PStr (lit "Pod continuously crashes and restarts due to application errors, resource limits, or misconfiguration");
       kb_solution := PStr (lit "1. Check pod logs: kubectl logs <pod-name> 2. Verify resource limits and requests 3. Check liveness/readiness probes 4. Review container startup command and environment variables") |};
    {| kb_failure := PStr (lit "GitLab CI Pipeline Failure - Dependency Issues");
       kb_root_cause := PStr (lit "Pipeline fails due to missing, incompatible, or outdated dependencies in the build environment");
       kb_solution := PStr (lit "1. Update package versions in requirements/package files 2. Clear dependency cache: rm -rf node_modules, pip cache purge 3. Lock dependency versions 4. Verify package registry connectivity") |};
    {| kb_failure := PStr (lit "Unable to find image 'nginx:latest' locally docker: Error response from daemon: toomanyrequests");
       kb_root_cause := PStr (lit "Docker Hub rate limiting exceeded. Anonymous pulls limited to 100 per 6 hours, authenticated users get 200 per 6 hours");
       kb_solution := PStr (lit "1. Login to Docker Hub: docker login 2. Use Docker Hub Pro/Team account for higher limits 3. Implement image caching strategy 4. Use alternative registries or mirrors") |};
    {| kb_failure := PStr (lit "Branch not set issue - HEAD detached from FETCH_HEAD");
       kb_root_cause := PStr (lit "Git repository is in detached HEAD state, usually after pulling changes without proper branch checkout");
       kb_solution := PStr (lit "1. Create and switch to branch: git checkout -b <branch-name> 2. Or switch to existing branch: git checkout <branch-name> 3. Push changes: git push origin <branch-name>") |};
    {| kb_failure := PStr (lit "Ansible Playbook Failed - SSH Connection Timeout");
       kb_root_cause := PStr (lit "Ansible cannot establish SSH connection to target hosts due to network issues, authentication problems, or firewall restrictions");
       kb_solution := PStr (lit "1. Verify SSH connectivity: ssh user@host 2. Check SSH keys: ssh-add -l 3. Update inventory with correct IPs/hostnames 4. Configure SSH timeout in ansible.cfg") |};
    {| kb_failure := PStr (lit "Terraform Apply Failed - Resource Already Exists");
       kb_root_cause := PStr (lit "Terraform tries to create resources that already exist, usually due to state file mismatch or manual resource creation outside Terraform");
       kb_solution := PStr (lit "1. Import existing resources: terraform import 2. Update state file: terraform refresh 3. Use terraform plan to review changes 4. Consider using data sources for existing resources") |}
  ].

(** What the database file holds, seen from [load_from_database]: no
    file at all, a failure while it is read, or the rows of the query
    [(failure, root_cause, solution)]. *)
Inductive database : Type :=
| NoDatabase
| BrokenDatabase (e : exn)
| Rows (rows : list (pyval * pyval * pyval)).

Definition load_from_database (db : database) : option (list issue) :=
  match db with
  | NoDatabase => None
  | BrokenDatabase _ => None
  | Rows rows =>
      Some (map (fun '(f, r, s) =>
                   {| kb_failure := f; kb_root_cause := r; kb_solution := s |}) rows)
  end.

Definition row_of (entry : Z * issue) : doc :=
  let '(i, kb) := entry in
  [PInt i; kb_failure kb; kb_root_cause kb; kb_solution kb].

(** [get_devops_knowledgebase]: the rows of the database when it gave
    any, else the built-in entries; [if db_issues:] fails for [None] and
    for the empty list alike. *)
Definition get_devops_knowledgebase (db : database) : list doc :=
  match load_from_database db with
  | Some ((_ :: _) as db_issues) => map row_of (enumerate db_issues)
  | _ => map row_of (enumerate create_devops_knowledge_base)
  end.

(** ** Retrieval *)

(** [l[i]] of Python: a negative index counts from the end; outside the
    list it raises [IndexError]. *)
Definition py_getitem {A : Type} (l : list A) (i : Z) : result A :=
  let j := if i <? 0 then i + len l else i in
  if (0 <=? j) && (j <? len l) then
    match nth_error l (Z.to_nat j) with
    | Some a => Ok a
    | None => Raise (IndexError "index out of range")
    end
  else Raise (IndexError "index out of range").

(** [for x in l] with a body that can raise: the first exception ends
    the loop. *)
Fixpoint for_each {A B : Type} (f : A -> result B) (l : list A)
    : result (list B) :=
  match l with
  | [] => Ok []
  | a :: l' => (b <- f a ;; bs <- for_each f l' ;; Ok (b :: bs))%py
  end.

(** The text a row is indexed and shown to the LLM under. *)
Definition describe_row (row : doc) : result text :=
  (f <- py_getitem row 1 ;; cf <- clean_text f ;;
   r <- py_getitem row 2 ;; cr <- clean_text r ;;
   s <- py_getitem row 3 ;; cs <- clean_text s ;;
   Ok (lit "failure: " ++ cf ++ lit ", root_cause: " ++ cr
       ++ lit ", solution: " ++ cs))%py.

Section Retrieval.
(** The vector index and the embeddings are opaque to the engine. *)
Variables model index vector : Type.

(** The outcome of each call [query_faiss_index] makes outside the
    engine. *)
Record index_store : Type := {
  read_index : result index;              (* faiss.read_index(index_path) *)
  encode : model -> text -> result vector;
                                          (* embedding_model.encode(query) *)
  load_indexed_data : result (list doc);  (* open(data_path), pickle.load *)
  search : index -> vector -> nat -> result (list Z)
                            (* indices[0] of index.search(query_embedding, k) *)
}.

Definition is_FileNotFoundError (e : exn) : bool :=
  match e with
  | FileNotFoundError _ => true
  | _ => false
  end.

(** The [try] block of [query_faiss_index]. *)
Definition query_faiss_index_body (st : index_store)
    (embedding_model : model) (query : text)
    : result (list text * list doc) :=
  (idx <- read_index st ;;
   query_embedding <- encode st embedding_model query ;;
   indexed_data <- load_indexed_data st ;;
   indices <- search st idx query_embedding 5 ;;
   retrieved_docs <-
     for_each (py_getitem indexed_data)
       (filter (fun i => negb (i =? -1)) indices) ;;
   clean_retrieved_docs <- for_each describe_row retrieved_docs ;;
   Ok (clean_retrieved_docs, retrieved_docs))%py.

(** [query_faiss_index]: both handlers return the two empty lists. *)
Definition query_faiss_index (st : index_store)
    (embedding_model : model) (query : text)
    : result (list text * list doc) :=
  try_except
    (try_except (query_faiss_index_body st embedding_model query)
       is_FileNotFoundError (fun _ => Ok ([], [])))
    is_Exception (fun _ => Ok ([], [])).

(** ** The entry point *)

(** A response of the pipeline API, or the marker put in its place. *)
Inductive source_marker : Type :=
| UserInput
| PipelineResponse (status : Z)
| PipelineError (kind : string).

(** Everything outside the engine that one call of [main] meets. *)
Record world : Type := {
  get_embedding_model : result model;
  detect_and_process_pipeline_query :
    text -> result (option (source_marker * text));
  knowledge_db : database;
  vectorize_devops_data : list doc -> model -> result unit;
  store : index_store;
  ollama_chat : nat -> prompt -> result text
}.

(** [get_actual_devops_data] *)
Definition get_actual_devops_data (w : world) (input_query : text)
    : result (source_marker * text) :=
  (pipeline <- detect_and_process_pipeline_query w input_query ;;
   match pipeline with
   | Some (pipeline_resp, pipeline_query) =>
       Ok (pipeline_resp, pipeline_query)
   | None => Ok (UserInput, input_query)
   end)%py.

(** [trigger_notification] prints two lines and returns. *)
Definition trigger_notification (resp : source_marker)
    (output_dict : list solution) : result unit := Ok tt.

Definition default_query : text :=
  lit "Jenkins build failed with timeout error".

(** The [try] block of [main]. *)
Definition main_body (w : world) (input_query : option text)
    : result (list solution) :=
  (embedding_model <- get_embedding_model w ;;
   let input_query :=
     match input_query with
     | None => default_query
     | Some q => q
     end in
   '(resp, query) <- get_actual_devops_data w input_query ;;
   _ <- vectorize_devops_data w
          (get_devops_knowledgebase (knowledge_db w)) embedding_model ;;
   '(cleaned_retrieved_docs, retrieved_docs) <-
      query_faiss_index (store w) embedding_model query ;;
   solutions <-
     query_llm_model (ollama_chat w) cleaned_retrieved_docs query
       retrieved_docs 10 ;;
   _ <- trigger_notification resp solutions ;;
   Ok solutions)%py.

(** A line written to standard output.  Of the many the engine
    prints, the one of the handler of [main] is kept. *)
Inductive printed_line : Type :=
| ErrorInAnalysis (detail : string).

(** What a call leaves behind: the value it hands to its caller, and
    what it wrote to standard output. *)
Record outcome : Type := {
  returned : result (list solution);
  printed : list printed_line
}.

(** [main]: the handler prints the exception and returns the empty
    list. *)
Definition main (w : world) (input_query : option text) : outcome :=
  match main_body w input_query with
  | Ok solutions => {| returned := Ok solutions; printed := [] |}
  | Raise e =>
      if is_Exception e
      then {| returned := Ok [];
              printed := [ErrorInAnalysis (str_of_exn e)] |}
      else {| returned := Raise e; printed := [] |}
  end.
End Retrieval.

Arguments read_index {model index vector} _.
Arguments encode {model index vector} _ _ _.
Arguments load_indexed_data {model index vector} _.
Arguments search {model index vector} _ _ _ _.
Arguments query_faiss_index {model index vector} st embedding_model query.
Arguments query_faiss_index_body {model index vector} st embedding_model query.
Arguments main_body {model index vector} w input_query.
Arguments main {model index vector} w input_query.

(** ** Notions the properties are stated with *)

(** A text argument of the engine: a [str], or [None]. *)
Definition optional_text (x : option text) : pyval :=
  match x with
  | Some s => PStr s
  | None => PNone
  end.

(** [needle in hay] for texts. *)
Fixpoint starts_with (needle hay : text) : bool :=
  match needle, hay with
  | [], _ => true
  | a :: n', b :: h' => chr_eqb a b && starts_with n' h'
  | _ :: _, [] => false
  end.

Fixpoint text_contains (needle hay : text) : bool :=
  starts_with needle hay
  || match hay with
     | [] => false
     | _ :: h' => text_contains needle h'
     end.

(** The fields of the fallback line, as the parser reads them. *)
Definition fallback_confidence : float :=
  Eval vm_compute in float_of_decimal false 8 (-1).

Definition fallback_reason : text :=
  lit "Fallback selection - keyword matching applied".

(** The word that tells a fallback selection from one of the LLM. *)
Definition fallback_marker : text := lit "Fallback".

(** The entry the fallback line yields for the chunk at [chunk_start]. *)
Definition fallback_entry (retrieved_docs : list doc) (chunk_start : nat)
    : solution :=
  let d := nth chunk_start retrieved_docs [] in
  {| sol_failure := nth 1 d PNone;
     sol_root_cause := nth 2 d PNone;
     sol_solution := nth 3 d PNone;
     confidence := fallback_confidence;
     reason := fallback_reason;
     global_index := Z.of_nat chunk_start |}.

(** The value of [final_solutions] in [query_llm_model] when the loop
    over the chunks has ended, before [display_hackathon_results] sorts
    it: the entries in the order they were appended. *)
Definition emitted_solutions (ollama_chat : nat -> prompt -> result text)
    (cleaned_retrieved_docs : list text) (issue_description : text)
    (retrieved_docs : list doc) (chunk_size : nat)
    : result (list solution) :=
  (starts <- py_range (length cleaned_retrieved_docs) chunk_size ;;
   score_chunks ollama_chat cleaned_retrieved_docs issue_description
     retrieved_docs chunk_size starts [])%py.

(** The global indices that the local indices of a chunk, as the prompt
    numbers them, translate to: [chunk_offset + local_idx]. *)
Definition global_indices (chunk_start : nat) (chunk : list text) : list Z :=
  map (fun '(local_index, _) => Z.of_nat chunk_start + local_index)
    (enumerate chunk).

(** A position of the candidate list. *)
Definition in_bounds (retrieved_docs : list doc) (s : solution) : Prop :=
  0 <= global_index s < len retrieved_docs.

(** What holds of every entry [create_solution_entry] builds. *)
Definition admitted (retrieved_docs : list doc) (s : solution) : Prop :=
  in_bounds retrieved_docs s /\ fleb (confidence s) threshold = false.

(** The two lists [query_faiss_index] hands to the scorer: a text for
    each row, and rows of four items at least. *)
Definition candidates (cleaned_retrieved_docs : list text)
    (retrieved_docs : list doc) : Prop :=
  length cleaned_retrieved_docs = length retrieved_docs
  /\ Forall (fun d => 4 <= len d) retrieved_docs.

(** The confidence of [s] is a number. *)
Definition ordered (s : solution) : Prop := is_nan (confidence s) = false.

(** A solution that carries the confidence [c] and nothing else. *)
Definition probe (c : float) : solution :=
  {| sol_failure := PNone; sol_root_cause := PNone; sol_solution := PNone;
     confidence := c; reason := []; global_index := 0 |}.

(** Away from NaN, [<] of [float] is the lexicographic order of a class,
    an exponent and a mantissa. *)
Definition rank (x : float) : Z * Z * Z :=
  match x with
  | S754_nan => (3, 0, 0)
  | S754_infinity true => (-2, 0, 0)
  | S754_finite true m e => (-1, - e, - Zpos m)
  | S754_zero _ => (0, 0, 0)
  | S754_finite false m e => (1, e, Zpos m)
  | S754_infinity false => (2, 0, 0)
  end.

Definition lex_lt (a b : Z * Z * Z) : Prop :=
  let '(a1, a2, a3) := a in
  let '(b1, b2, b3) := b in
  a1 < b1 \/ (a1 = b1 /\ (a2 < b2 \/ (a2 = b2 /\ a3 < b3))).

(** ** Sample data *)

Definition sample_row (n : Z) : doc :=
  [PInt n; PStr (lit "failure"); PStr (lit "root cause"); PStr (lit "fix")].

Definition sample_rows (n : nat) : list doc :=
  map (fun i => sample_row (Z.of_nat i)) (seq 0 n).

(** The lines of a reply, joined by newlines. *)
Fixpoint lines (l : list string) : text :=
  match l with
  | [] => []
  | [s] => lit s
  | s :: rest => lit s ++ newline :: lines rest
  end.

(** A reply that names a row of the list and, twice, rows beyond it. *)
Definition reply_beyond_bounds : text :=
  lines ["1 0.9 a row of the list"%string;
         "7 0.95 no such row"%string;
         "2 | 0.99 | no such row either"%string].

(** Two replies of equal confidence, the later candidate named first. *)
Definition reply_out_of_order : text :=
  lines ["1 0.9 second candidate"%string; "0 0.9 first candidate"%string].

(** An index file that is there, and a metadata file that is not. *)
Definition store_without_metadata : index_store unit unit unit :=
  {| read_index := Ok tt;
     encode := fun _ _ => Ok tt;
     load_indexed_data := Raise (FileNotFoundError "indexed_devops_data.pkl");
     search := fun _ _ _ => Ok [0; 1] |}.

(** A machine on which the embedding model cannot be loaded. *)
Definition world_without_model : world unit unit unit :=
  {| get_embedding_model := Raise (RuntimeError "model unavailable");
     detect_and_process_pipeline_query := fun _ => Ok None;
     knowledge_db := NoDatabase;
     vectorize_devops_data := fun _ _ => Ok tt;
     store := store_without_metadata;
     ollama_chat := fun _ _ => Raise (ConnectionError "connection refused") |}.

(** A machine on which the index cannot be written. *)
Definition world_without_data_dir : world unit unit unit :=
  {| get_embedding_model := Ok tt;
     detect_and_process_pipeline_query := fun _ => Ok None;
     knowledge_db := NoDatabase;
     vectorize_devops_data :=
       fun _ _ => Raise (FileNotFoundError "faiss_index_devops_docs.index");
     store := store_without_metadata;
     ollama_chat := fun _ _ => Raise (ConnectionError "connection refused") |}.

(** * More of the engine *)

Arguments get_embedding_model {model index vector} _.
Arguments detect_and_process_pipeline_query {model index vector} _ _.
Arguments knowledge_db {model index vector} _.
Arguments vectorize_devops_data {model index vector} _ _ _.
Arguments store {model index vector} _.
Arguments ollama_chat {model index vector} _ _ _.
Arguments get_actual_devops_data {model index vector} w input_query.

(** ** What an entry says of its candidate *)

(** The entry [s] carries the three texts of the row at its
    [global_index]. *)
Definition from_candidate (retrieved_docs : list doc) (s : solution) : Prop :=
  exists d,
    nth_error retrieved_docs (Z.to_nat (global_index s)) = Some d
    /\ sol_failure s = nth 1 d PNone
    /\ sol_root_cause s = nth 2 d PNone
    /\ sol_solution s = nth 3 d PNone.

(** A text of whitespace only (the empty text too). *)
Definition blank (s : text) : bool := forallb isspace s.

(** A reply in the whitespace-delimited form that reads the same in
    every line: index, confidence, reason. *)
Definition reply_in_order : text :=
  lines ["0 0.7 first candidate"%string; EmptyString;
         "1 0.95 second candidate"%string; "nothing else"%string].

(** What a branch leaves behind: nothing to build, three bound
    variables, or an exception the loop catches. *)
Definition settled (vars : locals) (r : result flow) : Prop :=
  match r with
  | Ok Continue => True
  | Ok Proceed =>
      var_local_idx vars <> None /\ var_confidence vars <> None
      /\ var_reason vars <> None
  | Raise e => is_ValueError_or_IndexError e = true
  end.


(** ** The loop that prints the results *)

(** [10] as a [float]: the factor of [confidence * 10]. *)
Definition ten : float :=
  Eval vm_compute in binary_normalize prec emax 10 0 false.

(** The two ways [int(x)] fails on a [float]: [ValueError] for a NaN,
    [OverflowError] for an infinity. *)
Inductive int_error : Type :=
| CannotConvertNaN
| CannotConvertInfinity.

(** [int(x)] for a [float]: the integer part, the fraction cut off. *)
Definition int_of_float (x : float) : int_error + Z :=
  match x with
  | S754_nan => inl CannotConvertNaN
  | S754_infinity _ => inl CannotConvertInfinity
  | S754_zero _ => inr 0
  | S754_finite s m e =>
      inr (cond_Zopp s
             (if 0 <=? e then Zpos m * 2 ^ e else Zpos m / 2 ^ (- e)))
  end.

(** The two characters of the confidence bar. *)
Inductive cell : Type := FullBlock | LightShade.

(** [c * n] for a one-character string: nothing for [n <= 0]. *)
Definition str_times {A : Type} (c : A) (n : Z) : list A :=
  repeat c (Z.to_nat n).

(** [confidence_bar] of the loop. *)
Definition confidence_bar (conf : float) : int_error + list cell :=
  match int_of_float (SFmul prec emax conf ten) with
  | inl e => inl e
  | inr filled =>
      inr (str_times FullBlock filled ++ str_times LightShade (10 - filled))
  end.

(** The [for i, solution in enumerate(final_solutions, 1)] loop: the
    bars it prints, or the exception of the first bar that fails. *)
Fixpoint print_solutions (final_solutions : list solution)
    : int_error + list (list cell) :=
  match final_solutions with
  | [] => inr []
  | s :: rest =>
      match confidence_bar (confidence s) with
      | inl e => inl e
      | inr bar =>
          match print_solutions rest with
          | inl e => inl e
          | inr bars => inr (bar :: bars)
          end
      end
  end.

(** [display_hackathon_results] with its loop: the list as the call
    leaves it, unless a bar raised on the way. *)
Definition display_hackathon_results_printing
    (final_solutions : list solution) : int_error + list solution :=
  match final_solutions with
  | [] => inr []
  | _ =>
      let sorted := list_sort_reverse confidence_lt final_solutions in
      match print_solutions sorted with
      | inl e => inl e
      | inr _ => inr sorted
      end
  end.

(** [confidence * 10] is a number [int()] accepts. *)
Definition printable (s : solution) : bool :=
  match int_of_float (SFmul prec emax (confidence s) ten) with
  | inr _ => true
  | inl _ => false
  end.

(** ** Rows that can be described *)

(** A value [clean_text] accepts: text, or [None]. *)
Definition is_text_or_none (v : pyval) : bool :=
  match v with
  | PInt _ => false
  | _ => true
  end.

(** A database whose three columns hold text or NULL in every row. *)
Definition textual (db : database) : Prop :=
  match db with
  | Rows rows =>
      Forall (fun '(f, r, s) =>
                is_text_or_none f = true /\ is_text_or_none r = true
                /\ is_text_or_none s = true) rows
  | _ => True
  end.

(** [test_ai_engine]: whether the knowledge base that was loaded holds
    anything. *)
Definition test_ai_engine (db : database) : bool :=
  0 <? len (get_devops_knowledgebase db).

(** The three columns of a knowledge row, without its id. *)
Definition columns_of (row : doc) : pyval * pyval * pyval :=
  (nth 1 row PNone, nth 2 row PNone, nth 3 row PNone).

(** A database of two rows, one of them with a NULL column. *)
Definition sample_database : database :=
  Rows [(PStr (lit "Build timeout"), PStr (lit "Slow agent"),
         PStr (lit "1. Raise the limit"));
        (PStr (lit "Disk full"), PNone, PStr (lit "Clean the workspace"))].

(** A metadata file of three rows behind an index that names a fourth. *)
Definition stale_store : index_store unit unit unit :=
  {| read_index := Ok tt;
     encode := fun _ _ => Ok tt;
     load_indexed_data := Ok (sample_rows 3);
     search := fun _ _ _ => Ok [0; 3; -1] |}.

(** An index and a metadata file that agree. *)
Definition sound_store : index_store unit unit unit :=
  {| read_index := Ok tt;
     encode := fun _ _ => Ok tt;
     load_indexed_data := Ok (sample_rows 3);
     search := fun _ _ _ => Ok [2; 0; -1; -1; -1] |}.

(** A text made of word characters and whitespace other than the
    newline. *)
Definition plain (s : text) : Prop :=
  forall c, In c s -> (is_word c || isspace c) = true /\ c <> newline.

(** ** Building the index *)

Module Vectorize.
Section Vectorize.
Variable vector : Type.

(** [model.encode(batch)]: a vector for each text of the batch, or an
    exception. *)
Variable encode : list text -> result (list vector).

(** What follows the loop: the array of the embeddings, the index built
    from it, and the two files written. *)
Variable persist : list vector -> list doc -> result unit.

Definition batch_size : nat := 100.

(** The [for i in range(0, len(texts), batch_size)] loop. *)
Fixpoint encode_batches (texts : list text) (starts : list nat)
    (embeddings : list vector) : result (list vector) :=
  match starts with
  | [] => Ok embeddings
  | i :: rest =>
      let batch := slice texts i (i + batch_size) in
      (batch_embeddings <- encode batch ;;
       encode_batches texts rest (embeddings ++ batch_embeddings))%py
  end.

(** [vectorize_devops_data]; its handler prints the exception and
    raises it again. *)
Definition vectorize_devops_data (data : list doc) : result unit :=
  (texts <- for_each describe_row data ;;
   starts <- py_range (length texts) batch_size ;;
   embeddings <- encode_batches texts starts [] ;;
   persist embeddings data)%py.
End Vectorize.
End Vectorize.

(** ** Fetching the log of a pipeline *)

Module Pipeline.

(** [str.lower] on one character. *)
Definition lower_chr (c : ascii) : ascii :=
  let n := code c in
  if ((65 <=? n) && (n <=? 90))%N then ascii_of_N (n + 32) else c.

Definition str_lower (s : text) : text := map lower_chr s.

(** Two characters that [re.IGNORECASE] takes for one. *)
Definition chr_eqb_ci (a b : ascii) : bool :=
  chr_eqb (lower_chr a) (lower_chr b).

Fixpoint starts_with_ci (needle hay : text) : bool :=
  match needle, hay with
  | [], _ => true
  | a :: n', b :: h' => chr_eqb_ci a b && starts_with_ci n' h'
  | _ :: _, [] => false
  end.

(** [[^\s]] *)
Definition not_space (c : ascii) : bool := negb (isspace c).

(** The text matched by [[^\s]*] at the head of [s]. *)
Definition run_of (s : text) : text := fst (span not_space s).

(** What is left of [hay] behind the first place where [needle] stands,
    letter case ignored. *)
Fixpoint after_first_ci (needle hay : text) : option text :=
  if starts_with_ci needle hay then Some (skipn (length needle) hay)
  else match hay with
       | [] => None
       | _ :: h' => after_first_ci needle h'
       end.

(** Whether the literals stand in [run] one after another, with
    anything between them: [[^\s]*l1[^\s]*l2 ... [^\s]*] matches. *)
Fixpoint in_order_ci (literals : list text) (run : text) : bool :=
  match literals with
  | [] => true
  | l :: ls =>
      match after_first_ci l run with
      | Some rest => in_order_ci ls rest
      | None => false
      end
  end.

Definition scheme : text := lit "https://".

(** A pattern [https://[^\s]*l1[^\s]*l2...[^\s]*] with [re.IGNORECASE],
    tried at the head of [s]: the matched text.  The last [[^\s]*] is
    greedy, so a match runs to the next whitespace. *)
Definition match_pattern_at (literals : list text) (s : text) : option text :=
  if starts_with_ci scheme s then
    let run := run_of (skipn 8 s) in
    if in_order_ci literals run then Some (firstn 8 s ++ run) else None
  else None.

(** [(https://[^\s]+)], letter case observed, tried at the head of [s]. *)
Definition match_generic_at (s : text) : option text :=
  if starts_with scheme s then
    match run_of (skipn 8 s) with
    | [] => None
    | run => Some (scheme ++ run)
    end
  else None.

(** [re.findall(pattern, s)[0]]: the match at the leftmost place where
    there is one. *)
Fixpoint first_match (match_at : text -> option text) (s : text)
    : option text :=
  match match_at s with
  | Some m => Some m
  | None =>
      match s with
      | [] => None
      | _ :: s' => first_match match_at s'
      end
  end.

(** The five patterns, by the literals between their [[^\s]*]. *)
Definition pipeline_patterns : list (list text) :=
  [ [lit "jenkins"];
    [lit "gitlab"; lit "/pipelines/"];
    [lit "/job/"];
    [lit "/build/"];
    [lit "/console"] ].

(** The [for pattern in pipeline_patterns] loop with its [break]. *)
Fixpoint first_pattern_match (patterns : list (list text)) (input_query : text)
    : option text :=
  match patterns with
  | [] => None
  | pattern :: rest =>
      match first_match (match_pattern_at pattern) input_query with
      | Some m => Some m
      | None => first_pattern_match rest input_query
      end
  end.

Definition pipeline_keywords : list text :=
  [lit "jenkins"; lit "gitlab"; lit "build"; lit "pipeline"; lit "job";
   lit "console"].

(** The URL the query is about, if it is about a pipeline. *)
Definition extracted_url (input_query : text) : option text :=
  match first_pattern_match pipeline_patterns input_query with
  | Some m => Some m
  | None =>
      match first_match match_generic_at input_query with
      | Some url =>
          if existsb (fun keyword => text_contains keyword (str_lower url))
               pipeline_keywords
          then Some url else None
      | None => None
      end
  end.

(** [s.endswith(suffix)] *)
Definition ends_with (suffix s : text) : bool :=
  starts_with (rev suffix) (rev s).

(** The address of the console log of the build at [url]. *)
Definition console_url_of (url : text) : text :=
  if ends_with (lit "/consoleText") url then url
  else if ends_with (lit "/") url then url ++ lit "consoleText"
  else url ++ lit "/consoleText".

Definition error_keywords : list text :=
  [lit "error"; lit "failed"; lit "exception"; lit "traceback";
   lit "build failed"; lit "timeout"; lit "abort"; lit "crash"; lit "fatal";
   lit "critical"].

Definition mentions_error (line : text) : bool :=
  existsb (fun keyword => text_contains keyword (str_lower line))
    error_keywords.

(** The loop over the lines of the console log: the lines that name an
    error, stripped. *)
Definition error_lines_of (console_logs : text) : list text :=
  map str_strip (filter mentions_error (str_split newline console_logs)).

(** [l[-n:]] for a positive [n]. *)
Definition last_items {A : Type} (n : nat) (l : list A) : list A :=
  skipn (length l - n) l.

(** [sep.join(l)] *)
Fixpoint str_join (sep : text) (l : list text) : text :=
  match l with
  | [] => []
  | [s] => s
  | s :: rest => s ++ sep ++ str_join sep rest
  end.

(** The lines that go into the summary. *)
Definition summary_lines (error_logs : list text) : list text :=
  if (100 <? length error_logs)%nat then last_items 100 error_logs
  else error_logs.

Definition error_summary (error_logs : list text) : text :=
  str_join [newline] (summary_lines error_logs).

(** What [requests.get] does: it answers, or raises [Timeout], another
    [RequestException], or something else. *)
Inductive http_outcome : Type :=
| Responded (status_code : Z) (body : text)
| TimedOut
| RequestFailed (detail : text)
| Failed (e : exn).

(** [str(n)] for an integer. *)
Definition str_of_int (n : Z) : string :=
  DecimalString.NilZero.string_of_int (Z.to_int n).

(** [detect_and_process_pipeline_query]: [Ok None] stands for the pair
    [(None, None)]. *)
Definition detect_and_process_pipeline_query
    (requests_get : text -> http_outcome) (input_query : text)
    : result (option (source_marker * text)) :=
  match extracted_url input_query with
  | None => Ok None
  | Some url =>
      match requests_get (console_url_of url) with
      | Responded status_code body =>
          if status_code =? 200 then
            match error_lines_of body with
            | [] =>
                Ok (Some (PipelineResponse status_code,
                          lit "No specific error logs found in pipeline console output from "
                          ++ url))
            | error_logs =>
                Ok (Some (PipelineResponse status_code,
                          error_summary error_logs))
            end
          else if status_code =? 401 then
            Ok (Some (PipelineError "unauthorized",
                      lit "Pipeline access denied for " ++ url
                      ++ lit ". Please check credentials."))
          else
            Ok (Some (PipelineError ("status_" ++ str_of_int status_code),
                      lit "Could not fetch pipeline logs from " ++ url))
      | TimedOut =>
          Ok (Some (PipelineError "timeout",
                    lit "Pipeline API timeout for " ++ url))
      | RequestFailed detail =>
          Ok (Some (PipelineError "connection",
                    lit "Pipeline connection error: " ++ detail))
      | Failed e => Raise e
      end
  end.

End Pipeline.

(** A query that names a build of a Jenkins server. *)
Definition jenkins_query : text :=
  lit "Build broke, see HTTPS://ci.example.com/Jenkins/job/app/42/ please".




(** A marker that stands for a failed request. *)
Definition is_error_marker (m : source_marker) : bool :=
  match m with
  | PipelineError _ => true
  | _ => false
  end.


(** ** The endpoint of the API *)

Module Api.
(** [DevOpsQuery]: the body of a request. *)
Record DevOpsQuery : Type := {
  issue : text;
  include_confidence : option bool;     (* Optional[bool] = True *)
  max_solutions : option Z              (* Optional[int] = 5 *)
}.

(** The truth value of an [Optional[bool]]. *)
Definition truthy (b : option bool) : bool :=
  match b with
  | Some true => true
  | _ => false
  end.

(** [l[:stop]]: the whole list for [None], the first [stop] items for a
    [stop] that is not negative, and all but the last [-stop] items for a
    negative one. *)
Definition slice_until {A : Type} (l : list A) (stop : option Z) : list A :=
  match stop with
  | None => l
  | Some n =>
      if 0 <=? n then firstn (Z.to_nat n) l
      else firstn (Z.to_nat (len l + n)) l
  end.

(** [sol.get('confidence', 0) > 0.6] *)
Definition above_threshold (sol : solution) : bool :=
  fltb threshold (confidence sol).

(** The solutions [analyze_devops_issue] converts and sends, from the
    list [main] returned. *)
Definition selected_solutions (query : DevOpsQuery)
    (solutions : list solution) : list solution :=
  match solutions with
  | [] => []
  | _ =>
      let solutions :=
        if truthy (include_confidence query)
        then filter above_threshold solutions
        else solutions in
      slice_until solutions (max_solutions query)
  end.

(** [analyze_devops_issue] up to the conversion of the solutions. *)
Definition analyze_devops_issue {model index vector : Type}
    (w : world model index vector) (query : DevOpsQuery)
    : result (list solution) :=
  (solutions <- returned (main w (Some (issue query))) ;;
   Ok (selected_solutions query solutions))%py.
End Api.

(** A request with the defaults of [DevOpsQuery]. *)
Definition default_request (q : text) : Api.DevOpsQuery :=
  {| Api.issue := q; Api.include_confidence := Some true;
     Api.max_solutions := Some 5 |}.


(** A world in which everything works but the LLM. *)
Definition world_without_llm : world unit unit unit :=
  {| get_embedding_model := Ok tt;
     detect_and_process_pipeline_query := fun _ => Ok None;
     knowledge_db := NoDatabase;
     vectorize_devops_data := fun _ _ => Ok tt;
     store := sound_store;
     ollama_chat := fun _ _ => Raise (ConnectionError "connection refused") |}.

(** A world in which everything works but the index file. *)
Definition world_without_index : world unit unit unit :=
  {| get_embedding_model := Ok tt;
     detect_and_process_pipeline_query := fun _ => Ok None;
     knowledge_db := NoDatabase;
     vectorize_devops_data := fun _ _ => Ok tt;
     store := {| read_index :=
                   Raise (FileNotFoundError "faiss_index_devops_docs.index");
                 encode := fun _ _ => Ok tt;
                 load_indexed_data := Ok (sample_rows 3);
                 search := fun _ _ _ => Ok [0; 1] |};
     ollama_chat := fun _ _ => Ok reply_in_order |}.

(** * Properties *)

(** ** The knowledge base *)

Lemma enumerate_from_length {A : Type} (l : list A) (start : Z) :
  length (enumerate_from start l) = length l.
Proof.
  revert start; induction l; intros; simpl; [|rewrite IHl]; reflexivity.
Qed.

Lemma rows_ids_from (l : list issue) (start : Z) :
  map (@hd_error pyval) (map row_of (enumerate_from start l))
  = map (fun i => Some (PInt (start + Z.of_nat i))) (seq 0 (length l)).
Proof.
  revert start.
  induction l as [|kb l IH]; intros start; simpl; [reflexivity|].
  f_equal.
  - do 2 f_equal; lia.
  - rewrite IH, <- seq_shift, map_map.
    apply map_ext; intros i; do 2 f_equal; lia.
Qed.

Lemma rows_ids (l : list issue) :
  map (@hd_error pyval) (map row_of (enumerate l))
  = map (fun i => Some (PInt (Z.of_nat i)))
      (seq 0 (length (map row_of (enumerate l)))).
Proof.
  unfold enumerate.
  rewrite length_map, enumerate_from_length.
  apply rows_ids_from.
Qed.

(** C10.  Whatever the database holds (no file, an unreadable file, no
    rows or some rows), the first item of the rows that
    [get_devops_knowledgebase] returns runs through 0, 1, ..., n-1 in
    this order: the id of a row is its position. *)
Theorem knowledgebase_ids_are_positions (db : database) :
  map (@hd_error pyval) (get_devops_knowledgebase db)
  = map (fun i => Some (PInt (Z.of_nat i)))
      (seq 0 (length (get_devops_knowledgebase db))).
Proof.
  unfold get_devops_knowledgebase.
  destruct (load_from_database db) as [[|i l]|]; apply rows_ids.
Qed.

(** ** Chunk partitioning *)

Lemma map_add_seq (s n : nat) :
  map (fun i => s + i)%nat (seq 0 n) = seq s n.
Proof.
  revert s; induction n as [|n IH]; intros s; simpl; [reflexivity|].
  f_equal; [lia|].
  rewrite <- seq_shift, map_map, <- (IH (S s)).
  apply map_ext; intros; lia.
Qed.

Lemma firstn_then_firstn {A : Type} (l : list A) (a b : nat) :
  firstn a l ++ firstn b (skipn a l) = firstn (a + b) l.
Proof.
  revert l; induction a as [|a IH]; intros l; simpl; [reflexivity|].
  destruct l as [|x l]; simpl.
  - now rewrite firstn_nil.
  - now rewrite IH.
Qed.

Section ChunkArithmetic.
Variables N C : nat.
Hypothesis C_pos : (0 < C)%nat.

Let chunks : nat := ((N + C - 1) / C)%nat.

Lemma chunk_start_below (m : nat) : (m < chunks)%nat -> (m * C < N)%nat.
Proof.
  intros H.
  assert (D : (C * chunks <= N + C - 1)%nat)
    by (apply Nat.Div0.mul_div_le).
  nia.
Qed.

Lemma chunks_cover : (N <= chunks * C)%nat.
Proof.
  pose proof (Nat.div_mod_eq (N + C - 1) C) as D.
  pose proof (Nat.mod_upper_bound (N + C - 1) C) as M.
  fold chunks in D.
  nia.
Qed.
End ChunkArithmetic.

Section Partition.
Variable cleaned : list text.
Variable size : nat.
Hypothesis size_pos : (0 < size)%nat.

Let N : nat := length cleaned.

Lemma chunk_at_length (s : nat) :
  length (chunk_at cleaned size s) = (Nat.min (s + size) N - s)%nat.
Proof.
  unfold chunk_at, slice, chunk_end.
  rewrite length_firstn, length_skipn.
  fold N; lia.
Qed.

Lemma chunk_indices_prefix (m : nat) :
  (m <= (N + size - 1) / size)%nat ->
  flat_map
    (fun s => map (fun i => s + i)%nat
                (seq 0 (length (chunk_at cleaned size s))))
    (map (fun k => k * size)%nat (seq 0 m))
  = seq 0 (Nat.min (m * size) N).
Proof.
  induction m as [|m IH]; intros Hm; [reflexivity|].
  rewrite seq_S, map_app, flat_map_app, IH by lia.
  simpl; rewrite app_nil_r, map_add_seq, chunk_at_length.
  pose proof (chunk_start_below N size size_pos m ltac:(lia)) as B.
  replace (Nat.min (m * size) N) with (m * size)%nat by lia.
  rewrite <- seq_app.
  f_equal; lia.
Qed.

Lemma chunks_prefix (m : nat) :
  (m <= (N + size - 1) / size)%nat ->
  concat (map (chunk_at cleaned size)
            (map (fun k => k * size)%nat (seq 0 m)))
  = firstn (Nat.min (m * size) N) cleaned.
Proof.
  induction m as [|m IH]; intros Hm; [reflexivity|].
  rewrite seq_S, !map_app, concat_app, IH by lia.
  simpl; rewrite app_nil_r.
  pose proof (chunk_start_below N size size_pos m ltac:(lia)) as B.
  unfold chunk_at at 1, slice, chunk_end; fold N.
  replace (Nat.min (m * size) N) with (m * size)%nat by lia.
  rewrite firstn_then_firstn.
  f_equal; lia.
Qed.
End Partition.

Lemma global_indices_from (chunk_start k : nat) (chunk : list text) :
  map (fun '(local_index, _) => Z.of_nat chunk_start + local_index)
    (enumerate_from (Z.of_nat k) chunk)
  = map Z.of_nat
      (map (fun i => chunk_start + i)%nat (seq k (length chunk))).
Proof.
  revert k; induction chunk as [|c chunk IH]; intros k; simpl;
    [reflexivity|].
  f_equal; [lia|].
  replace (Z.of_nat k + 1) with (Z.of_nat (S k)) by lia.
  apply IH.
Qed.

Lemma global_indices_seq (chunk_start : nat) (chunk : list text) :
  global_indices chunk_start chunk
  = map Z.of_nat
      (map (fun i => chunk_start + i)%nat (seq 0 (length chunk))).
Proof. apply (global_indices_from chunk_start 0). Qed.

Lemma flat_map_global_indices (cleaned : list text) (size : nat)
    (starts : list nat) :
  flat_map (fun s => global_indices s (chunk_at cleaned size s)) starts
  = map Z.of_nat
      (flat_map
         (fun s => map (fun i => s + i)%nat
                     (seq 0 (length (chunk_at cleaned size s))))
         starts).
Proof.
  induction starts as [|s starts IH]; simpl; [reflexivity|].
  now rewrite map_app, IH, global_indices_seq.
Qed.

(** C8.  For a list of N candidates and a positive chunk size, the loop
    of [query_llm_model] visits chunks whose local indices, translated
    to [chunk_start + local_index], are 0, 1, ..., N-1, chunk after
    chunk and each once; and the chunks, put end to end, are the
    candidate list. *)
Theorem chunks_partition_candidates (cleaned : list text) (size : nat) :
  (0 < size)%nat ->
  exists starts,
    py_range (length cleaned) size = Ok starts
    /\ flat_map
         (fun chunk_start =>
            global_indices chunk_start (chunk_at cleaned size chunk_start))
         starts
       = map Z.of_nat (seq 0 (length cleaned))
    /\ concat (map (chunk_at cleaned size) starts) = cleaned.
Proof.
  intros Hpos.
  unfold py_range.
  destruct size as [|c]; [lia|].
  eexists; split; [reflexivity|].
  pose proof (chunks_cover (length cleaned) (S c) Hpos) as Hc.
  split.
  - rewrite flat_map_global_indices, chunk_indices_prefix by lia.
    do 2 f_equal; lia.
  - rewrite chunks_prefix by lia.
    apply firstn_all2; lia.
Qed.

Lemma chunks_partition_candidates_witness :
  exists starts,
    py_range (length (repeat (lit "row") 25)) 10 = Ok starts
    /\ flat_map
         (fun chunk_start =>
            global_indices chunk_start
              (chunk_at (repeat (lit "row") 25) 10 chunk_start))
         starts
       = map Z.of_nat (seq 0 (length (repeat (lit "row") 25)))
    /\ concat (map (chunk_at (repeat (lit "row") 25) 10) starts)
       = repeat (lit "row") 25.
Proof.
  apply (chunks_partition_candidates (repeat (lit "row") 25) 10).
  lia.
Defined.

(** ** Retrieval without an index *)

Section RetrievalFacts.
Context {model index vector : Type}.
Variable st : index_store model index vector.
Variable embedding_model : model.
Variable query : text.

Lemma query_faiss_index_handles (e : exn) :
  query_faiss_index_body st embedding_model query = Raise e ->
  query_faiss_index st embedding_model query = Ok ([], []).
Proof.
  intros H; unfold query_faiss_index; rewrite H; simpl.
  destruct (is_FileNotFoundError e); reflexivity.
Qed.

Lemma query_faiss_index_total :
  exists lists, query_faiss_index st embedding_model query = Ok lists.
Proof.
  destruct (query_faiss_index_body st embedding_model query) as [lists|e] eqn:B.
  - exists lists; unfold query_faiss_index; now rewrite B.
  - exists ([], []); now apply query_faiss_index_handles with e.
Qed.

Lemma body_fails_without_index (e : exn) :
  read_index st = Raise e -> query_faiss_index_body st embedding_model query = Raise e.
Proof. intros H; unfold query_faiss_index_body; now rewrite H. Qed.

Lemma body_fails_without_data (e : exn) :
  load_indexed_data st = Raise e ->
  exists e', query_faiss_index_body st embedding_model query = Raise e'.
Proof.
  intros H; unfold query_faiss_index_body.
  destruct (read_index st) as [i|e1]; simpl; [|now exists e1].
  destruct (encode st embedding_model query) as [v|e2]; simpl; [|now exists e2].
  rewrite H; simpl; now exists e.
Qed.
End RetrievalFacts.

(** C9.  When reading the index file raises, or opening and loading the
    metadata file raises, [query_faiss_index] returns the two empty
    lists; it does not raise. *)
Theorem retrieval_unavailable_gives_no_candidates
    {model index vector : Type} (st : index_store model index vector)
    (embedding_model : model) (query : text) :
  (exists e, read_index st = Raise e)
  \/ (exists e, load_indexed_data st = Raise e) ->
  query_faiss_index st embedding_model query = Ok ([], []).
Proof.
  intros [[e H]|[e H]].
  - apply query_faiss_index_handles with e.
    now apply body_fails_without_index.
  - destruct (body_fails_without_data st embedding_model query e H) as [e' B].
    now apply query_faiss_index_handles with e'.
Qed.

Lemma retrieval_unavailable_gives_no_candidates_witness :
  query_faiss_index store_without_metadata tt (lit "build failed")
  = Ok ([], []).
Proof.
  apply (retrieval_unavailable_gives_no_candidates store_without_metadata).
  right; exists (FileNotFoundError "indexed_devops_data.pkl"); reflexivity.
Defined.

(** ** The entry point *)

(** C6, as stated, fails: two calls that fail for different reasons hand
    the same value to the caller, the empty list, so no reason can be
    read off the returned value. *)
Lemma main_returns_bare_empty_list :
  main_body world_without_model None
    = Raise (RuntimeError "model unavailable")
  /\ main_body world_without_data_dir None
    = Raise (FileNotFoundError "faiss_index_devops_docs.index")
  /\ returned (main world_without_model None) = Ok []
  /\ returned (main world_without_data_dir None) = Ok []
  /\ ~ (exists reason_of : result (list solution) -> string,
          forall (w : world unit unit unit) (q : option text) (e : exn),
            main_body w q = Raise e ->
            reason_of (returned (main w q)) = str_of_exn e).
Proof.
  repeat split; try reflexivity.
  intros [reason_of H].
  pose proof (H world_without_model None _ eq_refl) as H1.
  pose proof (H world_without_data_dir None _ eq_refl) as H2.
  cbn in H1, H2.
  rewrite H1 in H2; discriminate H2.
Qed.

(** C6, amended.  [main] never raises: it returns the solutions of its
    [try] block, or, when anything in the block raises, the empty list
    and nothing else; the reason of the failure goes to standard
    output. *)
Theorem main_never_raises
    {model index vector : Type} (w : world model index vector)
    (q : option text) :
  exists solutions,
    returned (main w q) = Ok solutions
    /\ ((main_body w q = Ok solutions /\ printed (main w q) = [])
        \/ (exists e, main_body w q = Raise e
                      /\ solutions = []
                      /\ printed (main w q)
                         = [ErrorInAnalysis (str_of_exn e)])).
Proof.
  unfold main.
  destruct (main_body w q) as [solutions|e].
  - exists solutions; split; [reflexivity|left; split; reflexivity].
  - exists []; split; [reflexivity|].
    right; exists e; repeat split; reflexivity.
Qed.

(** ** Replies the parser does not survive *)

(** C2.  A first line with a pipe and fewer than three fields reaches
    the call of [create_solution_entry] with [local_idx] unbound: the
    exception is not one the loop catches, and [parse_llm_response]
    raises. *)
Theorem parse_llm_response_raises :
  parse_llm_response (lit "a|b") [lit "row"] 0 [sample_row 0]
  = Raise (UnboundLocalError "local_idx").
Proof. vm_compute. reflexivity. Qed.

(** The same slip after a good line: the rejected line is not skipped,
    it emits the entry of the line before once more. *)
Example rejected_pipe_line_repeats_entry :
  (sols <- parse_llm_response (lines ["0 0.9 good"%string; "a|b"%string]) [lit "row"] 0
             [sample_row 0] ;;
   Ok (map global_index sols, map reason sols))%py
  = Ok ([0; 0], [lit "good"; lit "good"]).
Proof. vm_compute. reflexivity. Qed.

(** ** The admission threshold *)

Example threshold_is_0_6 : py_float (lit "0.6") = Ok threshold.
Proof. vm_compute. reflexivity. Qed.

Example confidence_at_threshold_rejected :
  parse_llm_response (lit "0 0.6 relevant") [lit "row"] 0 [sample_row 0]
  = Ok [].
Proof. vm_compute. reflexivity. Qed.

Example confidence_above_threshold_admitted :
  (sols <- parse_llm_response (lit "0 0.6000001 relevant") [lit "row"] 0
             [sample_row 0] ;;
   Ok (map global_index sols))%py
  = Ok [0].
Proof. vm_compute. reflexivity. Qed.

(** C1.  A reply line whose confidence reads [nan] passes the test
    [confidence <= 0.6], which is false for a NaN: the entry is emitted,
    and its confidence is not greater than 0.6. *)
Theorem nan_confidence_is_admitted :
  exists entry,
    parse_llm_response (lit "0 nan relevant") [lit "row"] 0 [sample_row 0]
    = Ok [entry]
    /\ confidence entry = S754_nan
    /\ fltb threshold (confidence entry) = false.
Proof.
  eexists; split; [vm_compute; reflexivity|].
  split; reflexivity.
Qed.

(** ** Text normalisation *)

Lemma filter_all {A : Type} (f : A -> bool) (l : list A) :
  (forall x, In x l -> f x = true) -> filter f l = l.
Proof.
  induction l as [|a l IH]; intros H; simpl; [reflexivity|].
  rewrite (H a (or_introl eq_refl)), IH; [reflexivity|].
  intros x Hx; apply H; now right.
Qed.

Lemma filter_none {A : Type} (f : A -> bool) (l : list A) :
  (forall x, In x l -> f x = false) -> filter f l = [].
Proof.
  induction l as [|a l IH]; intros H; simpl; [reflexivity|].
  rewrite (H a (or_introl eq_refl)); apply IH.
  intros x Hx; apply H; now right.
Qed.

Lemma span_rest_incl (p : ascii -> bool) (s a b : text) :
  span p s = (a, b) -> forall c, In c b -> In c s.
Proof.
  revert a b; induction s as [|x s IH]; intros a b H c Hc; simpl in H.
  - now inversion H; subst.
  - destruct (p x).
    + destruct (span p s) as [a' b'] eqn:E.
      inversion H; subst.
      right; now apply (IH a' b eq_refl).
    + now inversion H; subst.
Qed.

Lemma list_marker_needs_full_stop (prev : option ascii) (s : text) :
  ~ In full_stop s -> list_marker prev s = None.
Proof.
  intros H; unfold list_marker.
  destruct (xorb _ _); [|reflexivity].
  destruct (span isdigit s) as [ds r] eqn:E.
  destruct ds as [|d ds]; [reflexivity|].
  destruct r as [|dot [|c r]]; try reflexivity.
  destruct (chr_eqb dot full_stop) eqn:D; [|reflexivity].
  apply Ascii.eqb_eq in D; subst dot.
  exfalso; apply H.
  apply (span_rest_incl _ _ _ _ E); now left.
Qed.

Lemma drop_list_markers_without_full_stop (s : text) :
  ~ In full_stop s ->
  forall prev, drop_list_markers prev 0 s = s.
Proof.
  induction s as [|c s IH]; intros H prev; [reflexivity|].
  simpl drop_list_markers.
  rewrite (list_marker_needs_full_stop prev (c :: s) H).
  rewrite IH; [reflexivity|].
  intros Hin; apply H; now right.
Qed.

Lemma drop_list_markers_incl (s : text) :
  forall prev skip c, In c (drop_list_markers prev skip s) -> In c s.
Proof.
  induction s as [|x s IH]; intros prev skip c H; [exact H|].
  simpl in H.
  destruct skip as [|k].
  - destruct (list_marker prev (x :: s)).
    + right; exact (IH _ _ _ H).
    + destruct H as [H|H]; [now left|right; exact (IH _ _ _ H)].
  - right; exact (IH _ _ _ H).
Qed.

Lemma replace_newlines_leaves_none (s : text) :
  ~ In newline (replace_newlines s).
Proof.
  unfold replace_newlines; intros H.
  apply in_flat_map in H; destruct H as [c [_ H]].
  destruct (chr_eqb c newline) eqn:E.
  - simpl in H; destruct H as [H|[H|[]]]; discriminate H.
  - destruct H as [H|[]]; subst c.
    unfold chr_eqb in E; now rewrite Ascii.eqb_refl in E.
Qed.

Lemma replace_newlines_without_newline (s : text) :
  ~ In newline s -> replace_newlines s = s.
Proof.
  induction s as [|c s IH]; intros H; [reflexivity|].
  change (replace_newlines (c :: s))
    with ((if chr_eqb c newline then lit ", " else [c])
          ++ replace_newlines s).
  destruct (chr_eqb c newline) eqn:E.
  - apply Ascii.eqb_eq in E; subst c; exfalso; apply H; now left.
  - rewrite IH; [reflexivity|].
    intros Hin; apply H; now right.
Qed.

(** What a cleaned text is made of. *)
Lemma clean_text_characters (s y : text) :
  clean_text (PStr s) = Ok y ->
  forall c, In c y ->
    (is_word c || isspace c) = true /\ c <> newline.
Proof.
  intros H c Hc; simpl in H; inversion H; subst y; clear H.
  unfold drop_punctuation in Hc.
  apply filter_In in Hc; destruct Hc as [Hc K].
  split; [exact K|].
  intros ->.
  apply drop_list_markers_incl in Hc.
  exact (replace_newlines_leaves_none _ Hc).
Qed.

(** A text without asterisk, newline, full stop or other punctuation
    is left as it is. *)
Lemma clean_text_fixes_clean (y : text) :
  (forall c, In c y -> (is_word c || isspace c) = true /\ c <> newline) ->
  clean_text (PStr y) = Ok y.
Proof.
  intros H; simpl; f_equal.
  assert (A : drop_asterisks y = y).
  { apply filter_all; intros c Hc.
    destruct (chr_eqb c asterisk) eqn:E; [|reflexivity].
    apply Ascii.eqb_eq in E; subst c.
    destruct (H _ Hc) as [K _]; discriminate K. }
  assert (N : replace_newlines y = y).
  { apply replace_newlines_without_newline; intros Hc.
    destruct (H _ Hc) as [_ K]; now apply K. }
  assert (M : drop_list_markers None 0 y = y).
  { apply drop_list_markers_without_full_stop; intros Hc.
    destruct (H _ Hc) as [K _]; discriminate K. }
  rewrite A, N, M.
  apply filter_all; intros c Hc; now destruct (H _ Hc).
Qed.

(** C7.  [clean_text] is idempotent on every text argument, a [str] or
    [None]: it returns a text, and cleaning that text again returns it
    unchanged. *)
Theorem clean_text_idempotent (x : option text) :
  exists y,
    clean_text (optional_text x) = Ok y
    /\ clean_text (PStr y) = Ok y.
Proof.
  destruct x as [s|]; simpl optional_text.
  - eexists; split; [reflexivity|].
    apply clean_text_fixes_clean.
    now apply (clean_text_characters s).
  - exists []; split; reflexivity.
Qed.

(** ** The order of [float] *)

Ltac compare_cases :=
  repeat match goal with
    | |- context [Z.compare ?a ?b] => destruct (Z.compare_spec a b)
    | |- context [Pos.compare_cont Eq ?a ?b] =>
        change (Pos.compare_cont Eq a b) with (Pos.compare a b);
        destruct (Pos.compare_spec a b)
    end.

Ltac float_cases x y :=
  destruct x as [[|]|[|]| |[|] ? ?]; try discriminate;
  destruct y as [[|]|[|]| |[|] ? ?]; try discriminate;
  unfold fltb, fleb, feqb, SFltb, SFleb, SFeqb, SFcompare, rank, lex_lt.

Lemma fltb_rank (x y : float) :
  is_nan x = false -> is_nan y = false ->
  fltb x y = true <-> lex_lt (rank x) (rank y).
Proof.
  intros Hx Hy; float_cases x y; compare_cases;
    split; intros K; try reflexivity; try discriminate K; try lia.
Qed.

Lemma fleb_rank (x y : float) :
  is_nan x = false -> is_nan y = false ->
  fleb x y = true <-> (lex_lt (rank x) (rank y) \/ rank x = rank y).
Proof.
  intros Hx Hy; float_cases x y; compare_cases;
    split; intros K; try reflexivity; try discriminate K;
    try (right; f_equal; f_equal; lia);
    try (left; lia);
    try (exfalso; destruct K as [K|K]; [lia|inversion K; lia]).
Qed.

Lemma feqb_rank (x y : float) :
  is_nan x = false -> is_nan y = false ->
  feqb x y = true <-> rank x = rank y.
Proof.
  intros Hx Hy; float_cases x y; compare_cases;
    split; intros K; try reflexivity; try discriminate K;
    try (f_equal; f_equal; lia);
    try (exfalso; inversion K; lia).
Qed.

Lemma lex_lt_trans (a b c : Z * Z * Z) :
  lex_lt a b -> lex_lt b c -> lex_lt a c.
Proof.
  destruct a as [[a1 a2] a3], b as [[b1 b2] b3], c as [[c1 c2] c3].
  unfold lex_lt; lia.
Qed.

Lemma lex_lt_total (a b : Z * Z * Z) :
  lex_lt a b \/ a = b \/ lex_lt b a.
Proof.
  destruct a as [[a1 a2] a3], b as [[b1 b2] b3]; unfold lex_lt.
  destruct (Z.lt_total a1 b1) as [?|[?|?]];
    destruct (Z.lt_total a2 b2) as [?|[?|?]];
    destruct (Z.lt_total a3 b3) as [?|[?|?]]; subst;
    try (left; lia); try (right; right; lia); right; left; reflexivity.
Qed.

Lemma lex_lt_irrefl (a : Z * Z * Z) : ~ lex_lt a a.
Proof. destruct a as [[a1 a2] a3]; unfold lex_lt; lia. Qed.

Lemma fltb_false_rank (x y : float) :
  is_nan x = false -> is_nan y = false ->
  fltb x y = false <-> (lex_lt (rank y) (rank x) \/ rank x = rank y).
Proof.
  intros Hx Hy.
  pose proof (fltb_rank x y Hx Hy) as L.
  destruct (lex_lt_total (rank x) (rank y)) as [T|[T|T]].
  - split; intros H.
    + apply L in T; congruence.
    + exfalso; destruct H as [H|H].
      * exact (lex_lt_irrefl _ (lex_lt_trans _ _ _ T H)).
      * rewrite H in T; exact (lex_lt_irrefl _ T).
  - split; intros H; [now right|].
    destruct (fltb x y) eqn:E; [|reflexivity].
    exfalso; rewrite T in L; apply (lex_lt_irrefl (rank y)); now apply L.
  - split; intros H; [now left|].
    destruct (fltb x y) eqn:E; [|reflexivity].
    exfalso; exact (lex_lt_irrefl _ (lex_lt_trans _ _ _ T (proj1 L eq_refl))).
Qed.

(** ** The sort *)

Lemma StronglySorted_snoc {A : Type} (R : A -> A -> Prop) (l : list A) (a : A) :
  StronglySorted R l -> Forall (fun b => R b a) l ->
  StronglySorted R (l ++ [a]).
Proof.
  induction 1 as [|b l S IH F]; intros H; simpl.
  - repeat constructor.
  - inversion H; subst.
    constructor; [now apply IH|].
    apply Forall_app; split; [exact F|now constructor].
Qed.

Lemma StronglySorted_rev {A : Type} (R : A -> A -> Prop) (l : list A) :
  StronglySorted R l -> StronglySorted (fun a b => R b a) (rev l).
Proof.
  induction 1 as [|a l S IH F]; simpl; [constructor|].
  apply StronglySorted_snoc; [exact IH|].
  apply Forall_rev; exact F.
Qed.

Lemma StronglySorted_weaken {A : Type} (R R' : A -> A -> Prop)
    (ok : A -> Prop) (l : list A) :
  (forall a b, ok a -> ok b -> R a b -> R' a b) ->
  Forall ok l -> StronglySorted R l -> StronglySorted R' l.
Proof.
  intros W F S; induction S as [|a l S IH Fa]; [constructor|].
  inversion F as [|? ? Oa Ol]; subst.
  constructor; [now apply IH|].
  rewrite Forall_forall in *.
  intros b Hb; apply W; auto.
Qed.

Section SortFacts.
Context {A : Type}.
Variable lt : A -> A -> bool.

Let ins (acc : list A) (x : A) : list A := insert_right lt x acc.

Lemma insert_right_permutation (x : A) (l : list A) :
  Permutation (x :: l) (insert_right lt x l).
Proof.
  induction l as [|y l IH]; simpl; [reflexivity|].
  destruct (lt x y); [reflexivity|].
  rewrite perm_swap; now constructor.
Qed.

Lemma fold_insert_permutation (l acc : list A) :
  Permutation (acc ++ l) (fold_left ins l acc).
Proof.
  revert acc; induction l as [|x l IH]; intros acc; simpl.
  - now rewrite app_nil_r.
  - rewrite <- IH.
    rewrite <- Permutation_middle.
    change (x :: acc ++ l) with ((x :: acc) ++ l).
    apply Permutation_app_tail, insert_right_permutation.
Qed.

Lemma list_sort_reverse_permutation (l : list A) :
  Permutation l (list_sort_reverse lt l).
Proof.
  unfold list_sort_reverse, sort_ascending.
  apply Permutation_trans with (rev l); [apply Permutation_rev|].
  apply Permutation_trans with (fold_left ins (rev l) []).
  - apply (fold_insert_permutation (rev l) []).
  - apply Permutation_rev.
Qed.

(** Where nothing is smaller than anything, nothing moves. *)
Lemma insert_right_last (x : A) (l : list A) :
  (forall y, In y l -> lt x y = false) -> insert_right lt x l = l ++ [x].
Proof.
  induction l as [|y l IH]; intros H; simpl; [reflexivity|].
  rewrite (H y (or_introl eq_refl)), IH; [reflexivity|].
  intros z Hz; apply H; now right.
Qed.

Lemma fold_insert_unordered (l acc : list A) :
  (forall x y, In x (acc ++ l) -> In y (acc ++ l) -> lt x y = false) ->
  fold_left ins l acc = acc ++ l.
Proof.
  revert acc; induction l as [|x l IH]; intros acc H; simpl.
  - now rewrite app_nil_r.
  - unfold ins at 2; rewrite insert_right_last.
    + rewrite IH; rewrite <- app_assoc; [reflexivity|exact H].
    + intros y Hy; apply H; apply in_or_app; [right; now left|now left].
Qed.

Lemma list_sort_reverse_unordered (l : list A) :
  (forall x y, In x l -> In y l -> lt x y = false) ->
  list_sort_reverse lt l = l.
Proof.
  intros H; unfold list_sort_reverse, sort_ascending.
  change (fold_left _ (rev l) []) with (fold_left ins (rev l) []).
  rewrite fold_insert_unordered; simpl; [apply rev_involutive|].
  intros x y Hx Hy; apply H; now apply in_rev.
Qed.

(** The items [lt] orders. *)
Variable ok : A -> Prop.
Hypothesis lt_irrefl : forall x, ok x -> lt x x = false.
Hypothesis lt_trans : forall x y z, ok x -> ok y -> ok z ->
  lt x y = true -> lt y z = true -> lt x z = true.
Hypothesis lt_negtrans : forall x y z, ok x -> ok y -> ok z ->
  lt x y = false -> lt y z = false -> lt x z = false.

Lemma lt_asym (x y : A) : ok x -> ok y -> lt x y = true -> lt y x = false.
Proof.
  intros Ox Oy H.
  destruct (lt y x) eqn:E; [|reflexivity].
  rewrite <- (lt_irrefl x Ox); symmetry.
  now apply lt_trans with y.
Qed.

(** [x < y] and [y <= b] give [x < b]. *)
Lemma lt_le_trans (x y b : A) :
  ok x -> ok y -> ok b -> lt x y = true -> lt b y = false -> lt x b = true.
Proof.
  intros Ox Oy Ob H K.
  destruct (lt x b) eqn:E; [reflexivity|].
  rewrite <- H; symmetry; now apply lt_negtrans with b.
Qed.

Lemma insert_right_ascending (x : A) (l : list A) :
  ok x -> Forall ok l -> ascending lt l -> ascending lt (insert_right lt x l).
Proof.
  intros Ox Ol S; induction S as [|y l S IH F]; simpl.
  - repeat constructor.
  - inversion Ol as [|? ? Oy Ol']; subst.
    destruct (lt x y) eqn:E.
    + constructor; [now constructor|].
      constructor; [now apply lt_asym|].
      rewrite Forall_forall in *; intros b Hb.
      apply lt_negtrans with y; auto.
      now apply lt_asym.
    + constructor; [now apply IH|].
      rewrite Forall_forall in *; intros b Hb.
      apply Permutation_in with (l' := x :: l) in Hb;
        [|symmetry; apply insert_right_permutation].
      destruct Hb as [<-|Hb]; auto.
Qed.

Lemma fold_insert_ascending (l acc : list A) :
  Forall ok acc -> Forall ok l -> ascending lt acc ->
  ascending lt (fold_left ins l acc).
Proof.
  revert acc; induction l as [|x l IH]; intros acc Oa Ol S; simpl; [exact S|].
  inversion Ol; subst.
  apply IH; auto.
  - apply (Permutation_Forall (insert_right_permutation x acc)).
    now constructor.
  - now apply insert_right_ascending.
Qed.

(** The result runs downwards: no item is smaller than a later one. *)
Lemma list_sort_reverse_descending (l : list A) :
  Forall ok l ->
  StronglySorted (fun a b => lt a b = false) (list_sort_reverse lt l).
Proof.
  intros Ol; unfold list_sort_reverse, sort_ascending.
  apply (StronglySorted_rev (fun a b => lt b a = false)).
  apply fold_insert_ascending; [constructor|now apply Forall_rev|constructor].
Qed.

Lemma insert_right_stable (c x : A) (l : list A) :
  ok c -> ok x -> Forall ok l -> ascending lt l ->
  filter (same_key lt c) (insert_right lt x l)
  = filter (same_key lt c) l ++ filter (same_key lt c) [x].
Proof.
  intros Oc Ox Ol S; induction S as [|y l S IH F].
  - simpl; reflexivity.
  - inversion Ol as [|? ? Oy Ol']; subst.
    simpl insert_right.
    destruct (lt x y) eqn:E.
    + change (filter (same_key lt c) (x :: y :: l))
        with (if same_key lt c x
              then x :: filter (same_key lt c) (y :: l)
              else filter (same_key lt c) (y :: l)).
      change (filter (same_key lt c) [x])
        with (if same_key lt c x then [x] else []).
      destruct (same_key lt c x) eqn:K; [|now rewrite app_nil_r].
      assert (Z : forall b, In b (y :: l) -> same_key lt c b = false).
      { intros b Hb.
        assert (Ob : ok b) by (rewrite Forall_forall in Ol; auto).
        assert (Lb : lt x b = true).
        { destruct Hb as [<-|Hb]; [exact E|].
          rewrite Forall_forall in F.
          apply lt_le_trans with y; auto. }
        unfold same_key in *.
        apply andb_true_iff in K; destruct K as [K1 K2].
        apply negb_true_iff in K1, K2.
        assert (Lc : lt c b = true).
        { destruct (lt c b) eqn:Ec; [reflexivity|].
          rewrite <- Lb; symmetry; now apply lt_negtrans with c. }
        now rewrite Lc. }
      assert (N : filter (same_key lt c) (y :: l) = []).
      { now apply filter_none. }
      now rewrite N.
    + change (filter (same_key lt c) (y :: insert_right lt x l))
        with (if same_key lt c y
              then y :: filter (same_key lt c) (insert_right lt x l)
              else filter (same_key lt c) (insert_right lt x l)).
      change (filter (same_key lt c) (y :: l))
        with (if same_key lt c y
              then y :: filter (same_key lt c) l
              else filter (same_key lt c) l).
      rewrite IH by auto.
      now destruct (same_key lt c y).
Qed.

Lemma fold_insert_stable (c : A) (l acc : list A) :
  ok c -> Forall ok acc -> Forall ok l -> ascending lt acc ->
  filter (same_key lt c) (fold_left ins l acc)
  = filter (same_key lt c) acc ++ filter (same_key lt c) l.
Proof.
  intros Oc; revert acc.
  induction l as [|x l IH]; intros acc Oa Ol S; simpl fold_left.
  - simpl; now rewrite app_nil_r.
  - inversion Ol as [|? ? Ox Ol']; subst.
    assert (Oi : Forall ok (ins acc x)).
    { apply (Permutation_Forall (insert_right_permutation x acc)).
      now constructor. }
    assert (Si : ascending lt (ins acc x))
      by (now apply insert_right_ascending).
    rewrite (IH _ Oi Ol' Si).
    unfold ins; rewrite insert_right_stable by auto.
    rewrite <- app_assoc; f_equal.
    simpl; now destruct (same_key lt c x).
Qed.

Lemma list_sort_reverse_stable (c : A) (l : list A) :
  ok c -> Forall ok l ->
  filter (same_key lt c) (list_sort_reverse lt l) = filter (same_key lt c) l.
Proof.
  intros Oc Ol; unfold list_sort_reverse, sort_ascending.
  change (fold_left _ (rev l) []) with (fold_left ins (rev l) []).
  rewrite filter_rev, fold_insert_stable;
    [|exact Oc|constructor|now apply Forall_rev|constructor].
  simpl; rewrite filter_rev; apply rev_involutive.
Qed.
End SortFacts.

(** ** What the scorer emits *)

Lemma create_solution_entry_some (local_idx : Z) (conf : float) (why : text)
    (chunk_offset : Z) (docs : list doc) (s : solution) :
  create_solution_entry local_idx conf why chunk_offset docs = Some s ->
  fleb conf threshold = false
  /\ confidence s = conf
  /\ reason s = why
  /\ global_index s = chunk_offset + local_idx
  /\ 0 <= chunk_offset + local_idx < len docs.
Proof.
  unfold create_solution_entry.
  destruct (fleb conf threshold); [discriminate|].
  destruct (0 <=? chunk_offset + local_idx) eqn:L; [|discriminate].
  destruct (chunk_offset + local_idx <? len docs) eqn:U; [|discriminate].
  simpl.
  destruct (nth_error docs _) as [d|]; [|discriminate].
  destruct (4 <=? len d); [|discriminate].
  intros H; inversion H; subst; simpl.
  apply Z.leb_le in L; apply Z.ltb_lt in U.
  repeat split; auto.
Qed.

Lemma create_solution_entry_out_of_bounds (local_idx : Z) (conf : float)
    (why : text) (chunk_offset : Z) (docs : list doc) :
  ~ (0 <= chunk_offset + local_idx < len docs) ->
  create_solution_entry local_idx conf why chunk_offset docs = None.
Proof.
  intros H.
  destruct (create_solution_entry _ _ _ _ _) as [s|] eqn:E; [|reflexivity].
  apply create_solution_entry_some in E; tauto.
Qed.

Lemma fleb_false_fltb (c t : float) :
  is_nan c = false -> is_nan t = false ->
  fleb c t = false <-> fltb t c = true.
Proof.
  intros Oc Ot.
  pose proof (fleb_rank c t Oc Ot) as L.
  pose proof (fltb_rank t c Ot Oc) as G.
  destruct (lex_lt_total (rank c) (rank t)) as [T|[T|T]].
  - split; intros H.
    + exfalso; destruct (fleb c t); [discriminate H|].
      assert (X : false = true) by (apply L; now left); discriminate X.
    + apply G in H.
      exfalso; exact (lex_lt_irrefl _ (lex_lt_trans _ _ _ T H)).
  - split; intros H.
    + exfalso; destruct (fleb c t); [discriminate H|].
      assert (X : false = true) by (apply L; now right); discriminate X.
    + apply G in H; rewrite T in H.
      exfalso; exact (lex_lt_irrefl _ H).
  - split; intros H; [now apply G|].
    destruct (fleb c t) eqn:E; [|reflexivity].
    exfalso; destruct (proj1 L eq_refl) as [K|K].
    + exact (lex_lt_irrefl _ (lex_lt_trans _ _ _ T K)).
    + rewrite K in T; exact (lex_lt_irrefl _ T).
Qed.

(** For a confidence that is a number, an entry is built exactly when
    the confidence is greater than 0.6, the translated index is a
    position of the list and the row there has four items. *)
Lemma admission_rule_for_numbers (local_idx : Z) (conf : float) (why : text)
    (chunk_offset : Z) (docs : list doc) :
  is_nan conf = false ->
  (exists s,
     create_solution_entry local_idx conf why chunk_offset docs = Some s)
  <-> (fltb threshold conf = true
       /\ 0 <= chunk_offset + local_idx < len docs
       /\ 4 <= len (nth (Z.to_nat (chunk_offset + local_idx)) docs [])).
Proof.
  intros Oc.
  pose proof (fleb_false_fltb conf threshold Oc eq_refl) as T.
  unfold create_solution_entry.
  destruct (fleb conf threshold).
  - split; [intros [s H]; discriminate H|].
    intros [H _]; apply T in H; discriminate H.
  - destruct (0 <=? chunk_offset + local_idx) eqn:L;
      [apply Z.leb_le in L|apply Z.leb_gt in L];
      [|split; [intros [s H]; discriminate H|intros (_ & B & _); lia]].
    destruct (chunk_offset + local_idx <? len docs) eqn:U;
      [apply Z.ltb_lt in U|apply Z.ltb_ge in U];
      [|split; [intros [s H]; discriminate H|intros (_ & B & _); lia]].
    simpl.
    assert (B : (Z.to_nat (chunk_offset + local_idx) < length docs)%nat)
      by (unfold len in U; lia).
    rewrite (nth_error_nth' docs [] B).
    destruct (4 <=? len _) eqn:F;
      [apply Z.leb_le in F|apply Z.leb_gt in F].
    + split; [intros _|intros _; eexists; reflexivity].
      split; [now apply T|split; [lia|exact F]].
    + split; [intros [s H]; discriminate H|intros (_ & _ & K); lia].
Qed.

Section Emitted.
Variable retrieved_docs : list doc.

Lemma parse_line_admitted (vars vars' : locals) (line : text)
    (chunk_offset : Z) (s : solution) :
  parse_line vars line chunk_offset retrieved_docs = (vars', Ok (Some s)) ->
  admitted retrieved_docs s.
Proof.
  unfold parse_line.
  destruct (split_line vars line) as [v [[|]|e]]; intros H;
    inversion H as [[V R]]; clear H; try discriminate R.
  destruct (var_local_idx vars') as [i|]; simpl in R; [|discriminate R].
  destruct (var_confidence vars') as [c|]; simpl in R; [|discriminate R].
  destruct (var_reason vars') as [w|]; simpl in R; [|discriminate R].
  inversion R as [E].
  apply create_solution_entry_some in E.
  destruct E as (T & C & _ & G & B).
  unfold admitted, in_bounds; rewrite C, G; auto.
Qed.

Lemma parse_lines_admitted (lines : list text) :
  forall vars chunk_offset acc sols,
    Forall (admitted retrieved_docs) acc ->
    parse_lines vars lines chunk_offset retrieved_docs acc = Ok sols ->
    Forall (admitted retrieved_docs) sols.
Proof.
  induction lines as [|raw rest IH]; intros vars off acc sols F H; simpl in H.
  - now inversion H; subst.
  - destruct (str_strip raw) as [|c line]; [now apply IH in H|].
    destruct (parse_line vars (c :: line) off retrieved_docs)
      as [v [[s|]|e]] eqn:P.
    + apply IH in H; auto.
      apply Forall_app; split; [exact F|].
      constructor; [|constructor].
      now apply parse_line_admitted in P.
    + now apply IH in H.
    + destruct (is_ValueError_or_IndexError e); [|discriminate H].
      now apply IH in H.
Qed.

Lemma parse_llm_response_admitted (response : text) (chunk : list text)
    (chunk_offset : Z) (sols : list solution) :
  parse_llm_response response chunk chunk_offset retrieved_docs = Ok sols ->
  Forall (admitted retrieved_docs) sols.
Proof.
  unfold parse_llm_response.
  destruct (text_eqb _ _); intros H.
  - inversion H; constructor.
  - now apply parse_lines_admitted in H.
Qed.

Variable ollama_chat : nat -> prompt -> result text.
Variable cleaned_retrieved_docs : list text.
Variable issue_description : text.
Variable chunk_size : nat.

Lemma score_chunks_admitted (starts : list nat) :
  forall acc sols,
    Forall (admitted retrieved_docs) acc ->
    score_chunks ollama_chat cleaned_retrieved_docs issue_description
      retrieved_docs chunk_size starts acc = Ok sols ->
    Forall (admitted retrieved_docs) sols.
Proof.
  induction starts as [|s rest IH]; intros acc sols F H; simpl in H.
  - now inversion H; subst.
  - destruct (raw_response_of (ollama_chat s _)) as [raw|e];
      [|discriminate H].
    simpl in H.
    destruct (parse_llm_response raw _ _ _) as [new|e] eqn:P;
      [|discriminate H].
    simpl in H; apply IH in H; auto.
    apply Forall_app; split; [exact F|].
    now apply parse_llm_response_admitted in P.
Qed.

Lemma display_hackathon_results_permutation (l : list solution) :
  Permutation l (display_hackathon_results l).
Proof.
  destruct l as [|a l]; [constructor|].
  apply list_sort_reverse_permutation.
Qed.

(** [query_llm_model] is the sort of what the loop emitted. *)
Lemma query_llm_model_emitted (sols : list solution) :
  query_llm_model ollama_chat cleaned_retrieved_docs issue_description
    retrieved_docs chunk_size = Ok sols ->
  exists emitted,
    sols = display_hackathon_results emitted
    /\ ((retrieved_docs = [] /\ emitted = [])
        \/ emitted_solutions ollama_chat cleaned_retrieved_docs
             issue_description retrieved_docs chunk_size = Ok emitted).
Proof.
  unfold query_llm_model, emitted_solutions.
  destruct retrieved_docs as [|d ds] eqn:D; intros H.
  - inversion H; exists []; split; [reflexivity|now left].
  - destruct (py_range _ _) as [starts|e]; [|discriminate H].
    simpl in *.
    destruct (score_chunks _ _ _ _ _ _ _) as [emitted|e]; [|discriminate H].
    simpl in H; inversion H.
    exists emitted; split; [reflexivity|now right].
Qed.

Lemma emitted_solutions_admitted (emitted : list solution) :
  emitted_solutions ollama_chat cleaned_retrieved_docs issue_description
    retrieved_docs chunk_size = Ok emitted ->
  Forall (admitted retrieved_docs) emitted.
Proof.
  unfold emitted_solutions.
  destruct (py_range _ _) as [starts|e]; [|discriminate].
  simpl; intros H.
  now apply score_chunks_admitted in H.
Qed.

Lemma query_llm_model_admitted (sols : list solution) :
  query_llm_model ollama_chat cleaned_retrieved_docs issue_description
    retrieved_docs chunk_size = Ok sols ->
  Forall (admitted retrieved_docs) sols.
Proof.
  intros H.
  destruct (query_llm_model_emitted sols H) as (emitted & -> & [[_ ->]|E]).
  - constructor.
  - apply (Permutation_Forall (display_hackathon_results_permutation _)).
    now apply emitted_solutions_admitted.
Qed.
End Emitted.

(** C5.  When [query_llm_model] returns, every solution in its list has
    a [global_index] that is a position of the candidate list; and
    [create_solution_entry] builds no entry for a line whose translated
    index [chunk_offset + local_idx] is outside the list.  (When the
    parser raises instead, nothing is emitted at all.) *)
Theorem emitted_indices_in_bounds
    (ollama_chat : nat -> prompt -> result text)
    (cleaned_retrieved_docs : list text) (issue_description : text)
    (retrieved_docs : list doc) (chunk_size : nat) (sols : list solution) :
  query_llm_model ollama_chat cleaned_retrieved_docs issue_description
    retrieved_docs chunk_size = Ok sols ->
  Forall (in_bounds retrieved_docs) sols
  /\ (forall local_idx conf why chunk_offset,
        ~ (0 <= chunk_offset + local_idx < len retrieved_docs) ->
        create_solution_entry local_idx conf why chunk_offset retrieved_docs
        = None).
Proof.
  intros H; split.
  - apply query_llm_model_admitted in H.
    eapply Forall_impl; [|exact H].
    now intros s [B _].
  - intros; now apply create_solution_entry_out_of_bounds.
Qed.

Lemma emitted_indices_in_bounds_witness :
  exists sols,
    query_llm_model (fun _ _ => Ok reply_beyond_bounds)
      [lit "a"; lit "b"] (lit "build failed") (sample_rows 2) 10 = Ok sols
    /\ map global_index sols = [1]
    /\ Forall (in_bounds (sample_rows 2)) sols.
Proof.
  eexists; split; [vm_compute; reflexivity|].
  split; [reflexivity|].
  apply (emitted_indices_in_bounds (fun _ _ => Ok reply_beyond_bounds)
           [lit "a"; lit "b"] (lit "build failed") (sample_rows 2) 10).
  vm_compute; reflexivity.
Defined.

(** ** Scoring without the LLM *)

Example fallback_confidence_is_0_8 :
  py_float (lit "0.8") = Ok fallback_confidence.
Proof. vm_compute. reflexivity. Qed.

Lemma raw_response_of_failure (e : exn) :
  raw_response_of (Raise e) = Ok fallback_response.
Proof. reflexivity. Qed.

Lemma parse_fallback_response (chunk : list text) (chunk_offset : Z)
    (docs : list doc) :
  parse_llm_response fallback_response chunk chunk_offset docs
  = match create_solution_entry 0 fallback_confidence fallback_reason
            chunk_offset docs with
    | Some entry => Ok [entry]
    | None => Ok []
    end.
Proof. vm_compute. reflexivity. Qed.

Lemma create_fallback_entry (docs : list doc) (chunk_start : nat) :
  (chunk_start < length docs)%nat ->
  Forall (fun d => 4 <= len d) docs ->
  create_solution_entry 0 fallback_confidence fallback_reason
    (Z.of_nat chunk_start) docs
  = Some (fallback_entry docs chunk_start).
Proof.
  intros B W.
  unfold create_solution_entry.
  change (fleb fallback_confidence threshold) with false.
  cbv iota.
  rewrite Z.add_0_r.
  assert (L : (0 <=? Z.of_nat chunk_start) = true) by (apply Z.leb_le; lia).
  assert (U : (Z.of_nat chunk_start <? len docs) = true)
    by (apply Z.ltb_lt; unfold len; lia).
  rewrite L, U, Nat2Z.id.
  cbv [andb].
  rewrite (nth_error_nth' docs [] B).
  assert (F : 4 <= len (nth chunk_start docs [])).
  { rewrite Forall_forall in W; apply W, nth_In, B. }
  apply Z.leb_le in F; rewrite F.
  reflexivity.
Qed.

Section Fallback.
Variable ollama_chat : nat -> prompt -> result text.
Variable cleaned : list text.
Variable issue : text.
Variable docs : list doc.
Variable size : nat.

Hypothesis unreachable : forall chunk_start request,
  exists e, ollama_chat chunk_start request = Raise e.
Hypothesis well_formed : candidates cleaned docs.

Lemma score_chunks_fallback (starts : list nat) :
  (forall s, In s starts -> (s < length docs)%nat) ->
  forall acc,
    score_chunks ollama_chat cleaned issue docs size starts acc
    = Ok (acc ++ map (fallback_entry docs) starts).
Proof.
  induction starts as [|s rest IH]; intros B acc; simpl.
  - now rewrite app_nil_r.
  - destruct (unreachable s
                {| prompt_issue := issue;
                   prompt_solutions := enumerate (chunk_at cleaned size s) |})
      as [e ->].
    rewrite raw_response_of_failure; simpl.
    rewrite parse_fallback_response, create_fallback_entry;
      [|apply B; now left|apply well_formed].
    simpl; rewrite IH by (intros; apply B; now right).
    now rewrite <- app_assoc.
Qed.

Lemma fallback_entries_unordered (starts : list nat) (x y : solution) :
  In x (map (fallback_entry docs) starts) ->
  In y (map (fallback_entry docs) starts) ->
  confidence_lt x y = false.
Proof.
  intros Hx Hy.
  apply in_map_iff in Hx; destruct Hx as [i [<- _]].
  apply in_map_iff in Hy; destruct Hy as [j [<- _]].
  reflexivity.
Qed.

Lemma display_fallback_entries (starts : list nat) :
  display_hackathon_results (map (fallback_entry docs) starts)
  = map (fallback_entry docs) starts.
Proof.
  unfold display_hackathon_results.
  destruct (map (fallback_entry docs) starts) as [|a l] eqn:E;
    [reflexivity|].
  rewrite <- E.
  apply list_sort_reverse_unordered, fallback_entries_unordered.
Qed.
End Fallback.

Lemma py_range_starts (stop step : nat) (starts : list nat) :
  py_range stop step = Ok starts ->
  (forall s, In s starts -> (s < stop)%nat)
  /\ ((0 < stop)%nat -> starts <> []).
Proof.
  unfold py_range.
  destruct step as [|c]; [discriminate|].
  intros H; inversion H; subst; clear H.
  split.
  - intros s Hs.
    apply in_map_iff in Hs; destruct Hs as [k [<- Hk]].
    apply in_seq in Hk.
    apply (chunk_start_below stop (S c)); [lia|].
    destruct Hk as [_ Hk]; exact Hk.
  - intros P E.
    apply map_eq_nil, length_zero_iff_nil in E.
    rewrite length_seq in E.
    change (((stop + S c - 1) / S c)%nat = 0%nat) in E.
    apply Nat.div_small_iff in E; lia.
Qed.

(** C4.  For a candidate list that is not empty, when the call of the
    LLM raises for every chunk, [query_llm_model] returns a list that is
    not empty: one entry for each chunk, in the order of the chunks, each
    the first candidate of its chunk (local index 0) with the confidence
    0.8 and a reason that contains the word [Fallback]. *)
Theorem fallback_scores_every_chunk
    (ollama_chat : nat -> prompt -> result text)
    (cleaned_retrieved_docs : list text) (issue_description : text)
    (retrieved_docs : list doc) (chunk_size : nat) :
  retrieved_docs <> [] ->
  candidates cleaned_retrieved_docs retrieved_docs ->
  (0 < chunk_size)%nat ->
  (forall chunk_start request,
     exists e, ollama_chat chunk_start request = Raise e) ->
  exists starts sols,
    py_range (length cleaned_retrieved_docs) chunk_size = Ok starts
    /\ query_llm_model ollama_chat cleaned_retrieved_docs issue_description
         retrieved_docs chunk_size = Ok sols
    /\ sols <> []
    /\ sols = map (fallback_entry retrieved_docs) starts
    /\ Forall (fun s => confidence s = fallback_confidence
                        /\ text_contains fallback_marker (reason s) = true)
         sols.
Proof.
  intros NE W P U.
  destruct (py_range (length cleaned_retrieved_docs) chunk_size)
    as [starts|e] eqn:R;
    [|unfold py_range in R; destruct chunk_size; [lia|discriminate R]].
  destruct (py_range_starts _ _ _ R) as [B N].
  destruct W as [L F].
  assert (S0 : starts <> []).
  { apply N; rewrite L; destruct retrieved_docs; [congruence|simpl; lia]. }
  exists starts, (map (fallback_entry retrieved_docs) starts).
  split; [reflexivity|].
  split; [|split; [|split; [reflexivity|]]].
  - unfold query_llm_model.
    destruct retrieved_docs as [|d ds] eqn:D; [congruence|].
    rewrite R; simpl.
    rewrite <- D in *.
    rewrite (score_chunks_fallback ollama_chat cleaned_retrieved_docs
               issue_description retrieved_docs chunk_size U (conj L F))
      by (intros s Hs; rewrite <- L; now apply B).
    simpl; now rewrite display_fallback_entries.
  - intros E; apply map_eq_nil in E; contradiction.
  - apply Forall_forall; intros s Hs.
    apply in_map_iff in Hs; destruct Hs as [i [<- _]].
    split; reflexivity.
Qed.

Lemma fallback_scores_every_chunk_witness :
  exists starts sols,
    py_range (length (repeat (lit "row") 25)) 10 = Ok starts
    /\ query_llm_model
         (fun _ _ => Raise (ConnectionError "connection refused"))
         (repeat (lit "row") 25) (lit "build failed") (sample_rows 25) 10
       = Ok sols
    /\ sols <> []
    /\ sols = map (fallback_entry (sample_rows 25)) starts
    /\ Forall (fun s => confidence s = fallback_confidence
                        /\ text_contains fallback_marker (reason s) = true)
         sols.
Proof.
  apply (fallback_scores_every_chunk
           (fun _ _ => Raise (ConnectionError "connection refused"))
           (repeat (lit "row") 25) (lit "build failed") (sample_rows 25) 10).
  - discriminate.
  - split; [reflexivity|].
    repeat constructor; vm_compute; discriminate.
  - lia.
  - intros; eexists; reflexivity.
Defined.

(** ** What retrieval hands to the scorer *)

Lemma for_each_length {A B : Type} (f : A -> result B) (l : list A)
    (bs : list B) :
  for_each f l = Ok bs -> length bs = length l.
Proof.
  revert bs; induction l as [|a l IH]; intros bs H; simpl in H.
  - now inversion H.
  - destruct (f a) as [b|e]; [|discriminate H]; simpl in H.
    destruct (for_each f l) as [bs'|e]; [|discriminate H]; simpl in H.
    inversion H; subst; simpl; f_equal; now apply IH.
Qed.

Lemma for_each_defined {A B : Type} (f : A -> result B) (l : list A)
    (bs : list B) :
  for_each f l = Ok bs -> Forall (fun a => exists b, f a = Ok b) l.
Proof.
  revert bs; induction l as [|a l IH]; intros bs H; simpl in H.
  - constructor.
  - destruct (f a) as [b|e] eqn:E; [|discriminate H]; simpl in H.
    destruct (for_each f l) as [bs'|e]; [|discriminate H].
    constructor; [now exists b|now apply (IH bs')].
Qed.

Lemma py_getitem_in_range {A : Type} (l : list A) (i : Z) (a : A) :
  0 <= i -> py_getitem l i = Ok a -> i < len l.
Proof.
  intros P; unfold py_getitem.
  destruct (i <? 0) eqn:N; [apply Z.ltb_lt in N; lia|].
  destruct (0 <=? i); [|discriminate].
  destruct (i <? len l) eqn:U; [|discriminate].
  intros _; now apply Z.ltb_lt.
Qed.

Lemma describe_row_defined (row : doc) (t : text) :
  describe_row row = Ok t -> 4 <= len row.
Proof.
  unfold describe_row; intros H.
  destruct (py_getitem row 1) as [f|e]; [|discriminate H]; simpl in H.
  destruct (clean_text f) as [cf|e]; [|discriminate H]; simpl in H.
  destruct (py_getitem row 2) as [r|e]; [|discriminate H]; simpl in H.
  destruct (clean_text r) as [cr|e]; [|discriminate H]; simpl in H.
  destruct (py_getitem row 3) as [s|e] eqn:G; [|discriminate H].
  apply py_getitem_in_range in G; lia.
Qed.

Lemma query_faiss_index_candidates {model index vector : Type}
    (st : index_store model index vector) (embedding_model : model)
    (query : text) (cleaned : list text) (docs : list doc) :
  query_faiss_index st embedding_model query = Ok (cleaned, docs) ->
  candidates cleaned docs.
Proof.
  unfold query_faiss_index.
  destruct (query_faiss_index_body st embedding_model query)
    as [[c d]|e] eqn:B; simpl.
  - intros H; inversion H; subst; clear H.
    unfold query_faiss_index_body in B.
    destruct (read_index st); [|discriminate B]; simpl in B.
    destruct (encode st embedding_model query); [|discriminate B];
      simpl in B.
    destruct (load_indexed_data st); [|discriminate B]; simpl in B.
    destruct (search st _ _ _); [|discriminate B]; simpl in B.
    destruct (for_each (py_getitem _) _); [|discriminate B]; simpl in B.
    destruct (for_each describe_row _) as [c'|] eqn:D; [|discriminate B].
    simpl in B; inversion B; subst; clear B.
    split; [now apply for_each_length in D|].
    apply for_each_defined in D.
    eapply Forall_impl; [|exact D].
    intros row [t T]; now apply describe_row_defined in T.
  - destruct (is_FileNotFoundError e); simpl; intros H; inversion H;
      split; constructor.
Qed.

(** ** Ranking *)

Lemma confidence_lt_irrefl (x : solution) :
  ordered x -> confidence_lt x x = false.
Proof.
  intros O; apply fltb_false_rank; auto.
Qed.

Lemma confidence_lt_trans (x y z : solution) :
  ordered x -> ordered y -> ordered z ->
  confidence_lt x y = true -> confidence_lt y z = true ->
  confidence_lt x z = true.
Proof.
  unfold confidence_lt; intros Ox Oy Oz H K.
  apply fltb_rank in H, K; auto.
  apply fltb_rank; auto.
  now apply lex_lt_trans with (rank (confidence y)).
Qed.

Lemma confidence_lt_negtrans (x y z : solution) :
  ordered x -> ordered y -> ordered z ->
  confidence_lt x y = false -> confidence_lt y z = false ->
  confidence_lt x z = false.
Proof.
  unfold confidence_lt; intros Ox Oy Oz H K.
  apply fltb_false_rank in H, K; auto.
  apply fltb_false_rank; auto.
  destruct H as [H|H], K as [K|K].
  - left; now apply lex_lt_trans with (rank (confidence y)).
  - left; now rewrite <- K.
  - left; now rewrite H.
  - right; congruence.
Qed.

Lemma same_key_feqb (c : float) (s : solution) :
  is_nan c = false -> ordered s ->
  same_key confidence_lt (probe c) s = feqb (confidence s) c.
Proof.
  intros Oc Os; unfold same_key, confidence_lt; simpl.
  destruct (feqb (confidence s) c) eqn:E.
  - apply feqb_rank in E; auto.
    assert (A : fltb c (confidence s) = false)
      by (apply fltb_false_rank; auto).
    assert (B : fltb (confidence s) c = false)
      by (apply fltb_false_rank; auto).
    now rewrite A, B.
  - destruct (fltb c (confidence s)) eqn:A; [reflexivity|].
    destruct (fltb (confidence s) c) eqn:B; [reflexivity|].
    exfalso.
    apply fltb_false_rank in A, B; auto.
    assert (R : rank (confidence s) = rank c).
    { destruct A as [A|A]; [|now symmetry].
      destruct B as [B|B]; [|exact B].
      exfalso; exact (lex_lt_irrefl _ (lex_lt_trans _ _ _ A B)). }
    apply feqb_rank in R; auto; congruence.
Qed.

Lemma display_descending (l : list solution) :
  Forall ordered l ->
  StronglySorted (fun a b => fleb (confidence b) (confidence a) = true)
    (display_hackathon_results l).
Proof.
  intros O; destruct l as [|a l]; [constructor|].
  unfold display_hackathon_results.
  apply StronglySorted_weaken
    with (R := fun x y => confidence_lt x y = false) (ok := ordered).
  - intros x y Ox Oy H.
    apply fltb_false_rank in H; auto.
    apply fleb_rank; auto.
    destruct H as [H|H]; [now left|now right].
  - apply (Permutation_Forall (list_sort_reverse_permutation _ _)), O.
  - apply list_sort_reverse_descending with (ok := ordered); auto.
    + apply confidence_lt_irrefl.
    + apply confidence_lt_trans.
    + apply confidence_lt_negtrans.
Qed.

Lemma display_stable (c : float) (l : list solution) :
  is_nan c = false -> Forall ordered l ->
  filter (fun s => feqb (confidence s) c) (display_hackathon_results l)
  = filter (fun s => feqb (confidence s) c) l.
Proof.
  intros Oc O; destruct l as [|a l]; [reflexivity|].
  unfold display_hackathon_results.
  set (l0 := a :: l) in *.
  assert (O' : Forall ordered (list_sort_reverse confidence_lt l0))
    by (apply (Permutation_Forall (list_sort_reverse_permutation _ _)), O).
  rewrite <- (filter_ext_in (same_key confidence_lt (probe c))
                (fun s => feqb (confidence s) c) (list_sort_reverse _ l0)).
  - rewrite <- (filter_ext_in (same_key confidence_lt (probe c))
                  (fun s => feqb (confidence s) c) l0).
    + apply list_sort_reverse_stable with (ok := ordered); auto.
      * apply confidence_lt_irrefl.
      * apply confidence_lt_trans.
      * apply confidence_lt_negtrans.
    + intros s Hs; apply same_key_feqb; auto.
      rewrite Forall_forall in O; auto.
  - intros s Hs; apply same_key_feqb; auto.
    rewrite Forall_forall in O'; auto.
Qed.

(** C3, as stated, fails: with equal confidence the entry for candidate
    1 stays before the entry for candidate 0, because the LLM named it
    first. *)
Lemma tie_keeps_reply_order :
  exists a b,
    query_llm_model (fun _ _ => Ok reply_out_of_order)
      [lit "first"; lit "second"] (lit "build failed") (sample_rows 2) 10
    = Ok [a; b]
    /\ feqb (confidence a) (confidence b) = true
    /\ global_index a = 1
    /\ global_index b = 0
    /\ ~ (global_index a <= global_index b).
Proof.
  do 2 eexists; split; [vm_compute; reflexivity|].
  repeat split; simpl; lia.
Qed.

(** C3, amended.  When [query_llm_model] returns and none of the
    confidences is a NaN, the list runs from the highest confidence
    down, it holds the entries the loop emitted and no others, and
    entries of equal confidence stand in the order in which they were
    emitted: chunk after chunk, and within a chunk line after line of
    the reply. *)
Theorem ranking_descending_and_stable
    (ollama_chat : nat -> prompt -> result text)
    (cleaned_retrieved_docs : list text) (issue_description : text)
    (retrieved_docs : list doc) (chunk_size : nat) (sols : list solution) :
  query_llm_model ollama_chat cleaned_retrieved_docs issue_description
    retrieved_docs chunk_size = Ok sols ->
  Forall (fun s => is_nan (confidence s) = false) sols ->
  StronglySorted (fun a b => fleb (confidence b) (confidence a) = true) sols
  /\ exists emitted,
       ((retrieved_docs = [] /\ emitted = [])
        \/ emitted_solutions ollama_chat cleaned_retrieved_docs
             issue_description retrieved_docs chunk_size = Ok emitted)
       /\ Permutation emitted sols
       /\ forall c, is_nan c = false ->
            filter (fun s => feqb (confidence s) c) sols
            = filter (fun s => feqb (confidence s) c) emitted.
Proof.
  intros H O.
  destruct (query_llm_model_emitted _ _ _ _ _ _ H) as (emitted & -> & E).
  assert (O' : Forall ordered emitted).
  { apply (Permutation_Forall
             (Permutation_sym (display_hackathon_results_permutation _))).
    exact O. }
  split; [now apply display_descending|].
  exists emitted; split; [exact E|].
  split; [apply display_hackathon_results_permutation|].
  intros c Oc; now apply display_stable.
Qed.

Lemma ranking_descending_and_stable_witness :
  exists sols,
    query_llm_model (fun _ _ => Ok reply_out_of_order)
      [lit "first"; lit "second"] (lit "build failed") (sample_rows 2) 10
    = Ok sols
    /\ map global_index sols = [1; 0]
    /\ StronglySorted
         (fun a b => fleb (confidence b) (confidence a) = true) sols
    /\ exists emitted,
         (sample_rows 2 = [] /\ emitted = []
          \/ emitted_solutions (fun _ _ => Ok reply_out_of_order)
               [lit "first"; lit "second"] (lit "build failed")
               (sample_rows 2) 10 = Ok emitted)
         /\ Permutation emitted sols
         /\ forall c, is_nan c = false ->
              filter (fun s => feqb (confidence s) c) sols
              = filter (fun s => feqb (confidence s) c) emitted.
Proof.
  eexists; split; [vm_compute; reflexivity|].
  split; [reflexivity|].
  apply (ranking_descending_and_stable (fun _ _ => Ok reply_out_of_order)
           [lit "first"; lit "second"] (lit "build failed") (sample_rows 2) 10).
  - vm_compute; reflexivity.
  - repeat constructor.
Defined.

(** * More properties *)

(** ** Replies without a pipe *)

Lemma lstrip_incl (s : text) (c : ascii) : In c (lstrip s) -> In c s.
Proof.
  induction s as [|x s IH]; simpl; [tauto|].
  destruct (isspace x); [intros H; right; now apply IH|tauto].
Qed.

Lemma str_strip_incl (s : text) (c : ascii) : In c (str_strip s) -> In c s.
Proof.
  unfold str_strip, rstrip; intros H.
  apply in_rev, lstrip_incl, in_rev in H.
  now apply lstrip_incl.
Qed.

Lemma str_split_incl (sep : ascii) (s piece : text) (c : ascii) :
  In piece (str_split sep s) -> In c piece -> In c s.
Proof.
  revert piece; induction s as [|x s IH]; intros piece P C; simpl in P.
  - destruct P as [<-|[]]; exact C.
  - destruct (chr_eqb x sep).
    + destruct P as [<-|P]; [destruct C|right; now apply (IH piece)].
    + destruct (str_split sep s) as [|p ps] eqn:E.
      * destruct P as [<-|[]]; destruct C as [<-|[]]; now left.
      * destruct P as [<-|P].
        -- destruct C as [<-|C]; [now left|right].
           apply (IH p); [now left|exact C].
        -- right; apply (IH piece); [now right|exact C].
Qed.

Lemma contains_chr_In (c : ascii) (s : text) :
  contains_chr c s = true <-> In c s.
Proof.
  unfold contains_chr; rewrite existsb_exists; split.
  - intros [x [H E]]; apply Ascii.eqb_eq in E; now subst.
  - intros H; exists c; split; [exact H|apply Ascii.eqb_refl].
Qed.

Lemma py_int_error (s : text) (e : exn) :
  py_int s = Raise e -> is_ValueError_or_IndexError e = true.
Proof.
  unfold py_int.
  destruct (str_isdigit s); [destruct (_ <? _)%nat|];
    intros H; inversion H; reflexivity.
Qed.

Lemma py_float_error (s : text) (e : exn) :
  py_float s = Raise e -> is_ValueError_or_IndexError e = true.
Proof.
  unfold py_float.
  destruct (strip_underscores _ _) as [t|]; [|intros H; now inversion H].
  destruct (take_sign t) as [neg r].
  destruct (parse_inf_or_nan neg r); [discriminate|].
  destruct (parse_decimal neg r); [discriminate|].
  intros H; now inversion H.
Qed.

Lemma assign_fields_settled (vars vars' : locals) (a b w : text)
    (r : result flow) :
  assign_fields vars a b w = (vars', r) -> settled vars' r.
Proof.
  unfold assign_fields.
  destruct (py_int a) as [i|e] eqn:I.
  - destruct (py_float b) as [c|e] eqn:F; intros H; inversion H; subst; simpl.
    + repeat split; discriminate.
    + now apply py_float_error in F.
  - intros H; inversion H; subst; simpl.
    now apply py_int_error in I.
Qed.

Lemma split_line_settled (vars vars' : locals) (line : text)
    (r : result flow) :
  contains_chr "|"%char line = false ->
  split_line vars line = (vars', r) -> settled vars' r.
Proof.
  unfold split_line; intros ->.
  destruct (_ && _).
  - apply assign_fields_settled.
  - intros H; inversion H; exact I.
Qed.

Lemma parse_line_caught (vars vars' : locals) (line : text) (off : Z)
    (docs : list doc) (e : exn) :
  contains_chr "|"%char line = false ->
  parse_line vars line off docs = (vars', Raise e) ->
  is_ValueError_or_IndexError e = true.
Proof.
  intros P; unfold parse_line.
  destruct (split_line vars line) as [v r] eqn:S.
  apply split_line_settled in S; [|exact P].
  destruct r as [[|]|e']; simpl in S; intros H; inversion H; subst; clear H.
  - destruct S as (A & B & C).
    destruct (var_local_idx vars'); [|congruence].
    destruct (var_confidence vars'); [|congruence].
    destruct (var_reason vars'); [|congruence].
    discriminate.
  - exact S.
Qed.

Lemma parse_lines_returns (lines : list text) (off : Z) (docs : list doc) :
  Forall (fun l => contains_chr "|"%char l = false) lines ->
  forall vars acc, exists sols, parse_lines vars lines off docs acc = Ok sols.
Proof.
  induction 1 as [|raw rest P F IH]; intros vars acc; simpl.
  - now exists acc.
  - destruct (str_strip raw) as [|c line] eqn:E; [apply IH|].
    destruct (parse_line vars (c :: line) off docs) as [v [[s|]|e]] eqn:L;
      try apply IH.
    apply parse_line_caught in L.
    + rewrite L; apply IH.
    + destruct (contains_chr "|"%char (c :: line)) eqn:C; [|reflexivity].
      apply contains_chr_In in C.
      rewrite <- E in C; apply str_strip_incl, contains_chr_In in C.
      congruence.
Qed.

Lemma split_keeps_absent (sep c : ascii) (s : text) :
  contains_chr c s = false ->
  Forall (fun l => contains_chr c l = false) (str_split sep s).
Proof.
  intros H; apply Forall_forall; intros piece P.
  destruct (contains_chr c piece) eqn:C; [|reflexivity].
  apply contains_chr_In in C.
  apply (str_split_incl _ _ _ _ P), contains_chr_In in C; congruence.
Qed.

(** X1.  A reply that holds no pipe character is parsed without an
    exception, whatever else it holds: every line is either skipped or
    read in the whitespace-delimited form. *)
Theorem pipe_free_reply_parses (response : text) (chunk : list text)
    (chunk_offset : Z) (retrieved_docs : list doc) :
  contains_chr "|"%char response = false ->
  exists sols,
    parse_llm_response response chunk chunk_offset retrieved_docs = Ok sols.
Proof.
  intros H; unfold parse_llm_response.
  destruct (text_eqb _ _); [now exists []|].
  apply parse_lines_returns, split_keeps_absent, H.
Qed.

Lemma pipe_free_reply_parses_witness :
  exists sols,
    parse_llm_response reply_in_order [lit "a"; lit "b"] 0 (sample_rows 2)
    = Ok sols.
Proof.
  apply (pipe_free_reply_parses reply_in_order [lit "a"; lit "b"] 0
           (sample_rows 2)).
  vm_compute; reflexivity.
Defined.

(** ** Blank replies *)

Lemma lstrip_blank (s : text) : blank s = true -> lstrip s = [].
Proof.
  induction s as [|c s IH]; simpl; [reflexivity|].
  intros H; apply andb_true_iff in H; destruct H as [C H].
  rewrite C; now apply IH.
Qed.

Lemma str_strip_blank (s : text) : blank s = true -> str_strip s = [].
Proof.
  intros H; unfold str_strip; now rewrite (lstrip_blank s H).
Qed.

Lemma parse_lines_blank (lines : list text) (off : Z) (docs : list doc) :
  Forall (fun l => blank l = true) lines ->
  forall vars acc, parse_lines vars lines off docs acc = Ok acc.
Proof.
  induction 1 as [|raw rest B F IH]; intros vars acc; simpl; [reflexivity|].
  rewrite (str_strip_blank raw B); apply IH.
Qed.

(** X2.  A reply of whitespace only (spaces, tabs, empty lines, or
    nothing at all) selects nothing: the parser returns the empty list. *)
Theorem blank_reply_selects_nothing (response : text) (chunk : list text)
    (chunk_offset : Z) (retrieved_docs : list doc) :
  blank response = true ->
  parse_llm_response response chunk chunk_offset retrieved_docs = Ok [].
Proof.
  intros H; unfold parse_llm_response.
  destruct (text_eqb _ _); [reflexivity|].
  apply parse_lines_blank, Forall_forall; intros piece P.
  unfold blank in *; rewrite forallb_forall in *.
  intros c C; apply H, (str_split_incl _ _ _ _ P C).
Qed.

Lemma blank_reply_selects_nothing_witness :
  parse_llm_response (lines [" "%string; EmptyString; "   "%string])
    [lit "a"] 0 (sample_rows 1) = Ok [].
Proof.
  apply (blank_reply_selects_nothing
           (lines [" "%string; EmptyString; "   "%string]) [lit "a"] 0
           (sample_rows 1)).
  vm_compute; reflexivity.
Defined.

(** ** What every returned entry satisfies *)

Section EntryInvariant.
Variable retrieved_docs : list doc.
Variable P : solution -> Prop.
Hypothesis created : forall local_idx conf why chunk_offset s,
  create_solution_entry local_idx conf why chunk_offset retrieved_docs
  = Some s -> P s.

Lemma parse_line_keeps (vars vars' : locals) (line : text) (off : Z)
    (s : solution) :
  parse_line vars line off retrieved_docs = (vars', Ok (Some s)) -> P s.
Proof.
  unfold parse_line.
  destruct (split_line vars line) as [v [[|]|e]]; intros H;
    inversion H as [[V R]]; clear H; try discriminate R.
  destruct (var_local_idx vars') as [i|]; simpl in R; [|discriminate R].
  destruct (var_confidence vars') as [c|]; simpl in R; [|discriminate R].
  destruct (var_reason vars') as [w|]; simpl in R; [|discriminate R].
  inversion R as [E]; now apply created in E.
Qed.

Lemma parse_lines_keeps (lines : list text) :
  forall vars off acc sols,
    Forall P acc ->
    parse_lines vars lines off retrieved_docs acc = Ok sols ->
    Forall P sols.
Proof.
  induction lines as [|raw rest IH]; intros vars off acc sols F H; simpl in H.
  - now inversion H; subst.
  - destruct (str_strip raw) as [|c line]; [now apply IH in H|].
    destruct (parse_line vars (c :: line) off retrieved_docs)
      as [v [[s|]|e]] eqn:L.
    + apply IH in H; auto.
      apply Forall_app; split; [exact F|].
      constructor; [now apply parse_line_keeps in L|constructor].
    + now apply IH in H.
    + destruct (is_ValueError_or_IndexError e); [|discriminate H].
      now apply IH in H.
Qed.

Lemma parse_llm_response_keeps (response : text) (chunk : list text)
    (off : Z) (sols : list solution) :
  parse_llm_response response chunk off retrieved_docs = Ok sols ->
  Forall P sols.
Proof.
  unfold parse_llm_response.
  destruct (text_eqb _ _); intros H.
  - inversion H; constructor.
  - now apply parse_lines_keeps in H.
Qed.

Lemma score_chunks_keeps (ollama_chat : nat -> prompt -> result text)
    (cleaned : list text) (issue : text) (size : nat) (starts : list nat) :
  forall acc sols,
    Forall P acc ->
    score_chunks ollama_chat cleaned issue retrieved_docs size starts acc
    = Ok sols ->
    Forall P sols.
Proof.
  induction starts as [|s rest IH]; intros acc sols F H; simpl in H.
  - now inversion H; subst.
  - destruct (raw_response_of (ollama_chat s _)) as [raw|e];
      [|discriminate H].
    simpl in H.
    destruct (parse_llm_response raw _ _ _) as [new|e] eqn:R;
      [|discriminate H].
    simpl in H; apply IH in H; auto.
    apply Forall_app; split; [exact F|].
    now apply parse_llm_response_keeps in R.
Qed.

Lemma query_llm_model_keeps (ollama_chat : nat -> prompt -> result text)
    (cleaned : list text) (issue : text) (size : nat)
    (sols : list solution) :
  query_llm_model ollama_chat cleaned issue retrieved_docs size = Ok sols ->
  Forall P sols.
Proof.
  intros H.
  destruct (query_llm_model_emitted _ _ _ _ _ _ H) as (emitted & -> & [[_ ->]|E]).
  - constructor.
  - apply (Permutation_Forall (display_hackathon_results_permutation _)).
    unfold emitted_solutions in E.
    destruct (py_range _ _) as [starts|e]; [|discriminate E].
    simpl in E; now apply score_chunks_keeps in E.
Qed.
End EntryInvariant.

Lemma create_solution_entry_from_candidate (local_idx : Z) (conf : float)
    (why : text) (chunk_offset : Z) (docs : list doc) (s : solution) :
  create_solution_entry local_idx conf why chunk_offset docs = Some s ->
  from_candidate docs s.
Proof.
  unfold create_solution_entry.
  destruct (fleb conf threshold); [discriminate|].
  destruct (_ && _); [|discriminate].
  destruct (nth_error docs _) as [d|] eqn:D; [|discriminate].
  destruct (4 <=? len d); [|discriminate].
  intros H; inversion H; subst; clear H.
  exists d; simpl; auto.
Qed.

(** X3.  Every solution that [query_llm_model] returns carries the
    failure, the root cause and the solution of the candidate at its
    [global_index]: the texts of an entry are never those of another
    row. *)
Theorem solutions_carry_their_candidate
    (ollama_chat : nat -> prompt -> result text)
    (cleaned_retrieved_docs : list text) (issue_description : text)
    (retrieved_docs : list doc) (chunk_size : nat) (sols : list solution) :
  query_llm_model ollama_chat cleaned_retrieved_docs issue_description
    retrieved_docs chunk_size = Ok sols ->
  Forall (from_candidate retrieved_docs) sols.
Proof.
  apply query_llm_model_keeps.
  intros i c w off s; apply create_solution_entry_from_candidate.
Qed.

Lemma solutions_carry_their_candidate_witness :
  exists sols,
    query_llm_model (fun _ _ => Ok reply_in_order)
      [lit "a"; lit "b"] (lit "build failed") (sample_rows 2) 10 = Ok sols
    /\ map global_index sols = [1; 0]
    /\ Forall (from_candidate (sample_rows 2)) sols.
Proof.
  eexists; split; [vm_compute; reflexivity|].
  split; [reflexivity|].
  apply (solutions_carry_their_candidate (fun _ _ => Ok reply_in_order)
           [lit "a"; lit "b"] (lit "build failed") (sample_rows 2) 10).
  vm_compute; reflexivity.
Defined.

(** ** One entry a line at most *)

Lemma parse_lines_length (lines : list text) :
  forall vars off docs acc sols,
    parse_lines vars lines off docs acc = Ok sols ->
    (length sols <= length acc + length lines)%nat.
Proof.
  induction lines as [|raw rest IH]; intros vars off docs acc sols H;
    simpl in H.
  - inversion H; subst; simpl; lia.
  - simpl length.
    destruct (str_strip raw) as [|c line]; [apply IH in H; lia|].
    destruct (parse_line vars (c :: line) off docs) as [v [[s|]|e]].
    + apply IH in H; rewrite length_app in H; simpl in H; lia.
    + apply IH in H; lia.
    + destruct (is_ValueError_or_IndexError e); [|discriminate H].
      apply IH in H; lia.
Qed.

(** X4.  The parser returns at most one entry for each line of the
    reply. *)
Theorem one_entry_per_line_at_most (response : text) (chunk : list text)
    (chunk_offset : Z) (retrieved_docs : list doc) (sols : list solution) :
  parse_llm_response response chunk chunk_offset retrieved_docs = Ok sols ->
  (length sols <= length (str_split newline response))%nat.
Proof.
  unfold parse_llm_response.
  destruct (text_eqb _ _); intros H.
  - inversion H; simpl; lia.
  - apply parse_lines_length in H; simpl in H; exact H.
Qed.

Lemma one_entry_per_line_at_most_witness :
  exists sols,
    parse_llm_response reply_in_order [lit "a"; lit "b"] 0 (sample_rows 2)
    = Ok sols
    /\ (length sols <= length (str_split newline reply_in_order))%nat.
Proof.
  eexists; split; [vm_compute; reflexivity|].
  apply (one_entry_per_line_at_most reply_in_order [lit "a"; lit "b"] 0
           (sample_rows 2)).
  vm_compute; reflexivity.
Defined.

(** ** The size of a chunk *)

(** X5.  For a positive chunk size, every chunk the loop of
    [query_llm_model] sends to the LLM holds one candidate at least and
    [chunk_size] candidates at most. *)
Theorem chunks_are_small_and_not_empty (cleaned : list text) (size : nat)
    (starts : list nat) :
  (0 < size)%nat ->
  py_range (length cleaned) size = Ok starts ->
  Forall (fun chunk_start =>
            (1 <= length (chunk_at cleaned size chunk_start) <= size)%nat)
    starts.
Proof.
  intros P R.
  destruct (py_range_starts _ _ _ R) as [B _].
  apply Forall_forall; intros s Hs.
  rewrite (chunk_at_length cleaned size P s).
  specialize (B s Hs); lia.
Qed.

Lemma chunks_are_small_and_not_empty_witness :
  Forall (fun chunk_start =>
            (1 <= length (chunk_at (repeat (lit "row") 25) 10 chunk_start)
             <= 10)%nat)
    [0; 10; 20]%nat.
Proof.
  apply (chunks_are_small_and_not_empty (repeat (lit "row") 25) 10
           [0; 10; 20]%nat).
  - lia.
  - reflexivity.
Defined.

(** ** Sorting loses nothing and settles *)



Lemma StronglySorted_tail {A : Type} (R : A -> A -> Prop) (l1 l2 : list A) :
  StronglySorted R (l1 ++ l2) -> StronglySorted R l2.
Proof.
  induction l1 as [|a l1 IH]; simpl; [tauto|].
  intros S; inversion S; subst; now apply IH.
Qed.

Lemma fold_insert_ascending_input {A : Type} (lt : A -> A -> bool)
    (l acc : list A) :
  ascending lt (acc ++ l) ->
  fold_left (fun a x => insert_right lt x a) l acc = acc ++ l.
Proof.
  revert acc; induction l as [|x l IH]; intros acc S; simpl.
  - now rewrite app_nil_r.
  - rewrite insert_right_last.
    + rewrite IH; rewrite <- app_assoc; [reflexivity|exact S].
    + intros y Hy.
      unfold ascending in S.
      apply in_split in Hy; destruct Hy as (l1 & l2 & ->).
      rewrite <- app_assoc in S; simpl in S.
      apply StronglySorted_tail in S.
      inversion S as [|? ? _ F]; subst.
      rewrite Forall_forall in F; apply F.
      apply in_or_app; right; now left.
Qed.

Lemma list_sort_reverse_sorted {A : Type} (lt : A -> A -> bool)
    (l : list A) :
  StronglySorted (fun a b => lt a b = false) l ->
  list_sort_reverse lt l = l.
Proof.
  intros S; unfold list_sort_reverse, sort_ascending.
  rewrite fold_insert_ascending_input; simpl; [apply rev_involutive|].
  apply (StronglySorted_rev (fun a b => lt a b = false)), S.
Qed.

(** X7.  Sorting is idempotent where the confidences are numbers:
    [display_hackathon_results] leaves a list it has sorted as it is. *)
Theorem display_hackathon_results_idempotent (l : list solution) :
  Forall (fun s => is_nan (confidence s) = false) l ->
  display_hackathon_results (display_hackathon_results l)
  = display_hackathon_results l.
Proof.
  intros O.
  destruct l as [|a l]; [reflexivity|].
  set (l0 := a :: l) in *.
  assert (S : StronglySorted (fun x y => confidence_lt x y = false)
                (display_hackathon_results l0)).
  { unfold display_hackathon_results, l0.
    apply list_sort_reverse_descending with (ok := ordered); auto.
    - apply confidence_lt_irrefl.
    - apply confidence_lt_trans.
    - apply confidence_lt_negtrans. }
  destruct (display_hackathon_results l0) as [|b m] eqn:E; [reflexivity|].
  unfold display_hackathon_results at 1.
  now apply list_sort_reverse_sorted.
Qed.

Lemma display_hackathon_results_idempotent_witness :
  display_hackathon_results
    (display_hackathon_results
       [probe fallback_confidence; probe threshold; probe fallback_confidence])
  = display_hackathon_results
      [probe fallback_confidence; probe threshold; probe fallback_confidence].
Proof.
  apply (display_hackathon_results_idempotent
           [probe fallback_confidence; probe threshold;
            probe fallback_confidence]).
  repeat constructor.
Defined.

(** ** The loop that prints the results *)

Example bar_of_the_fallback :
  confidence_bar fallback_confidence
  = inr (repeat FullBlock 8 ++ repeat LightShade 2).
Proof. vm_compute. reflexivity. Qed.

Lemma print_solutions_defined (l : list solution) :
  (exists bars, print_solutions l = inr bars)
  <-> Forall (fun s => printable s = true) l.
Proof.
  induction l as [|s l IH]; simpl.
  - split; [constructor|now exists []].
  - unfold printable at 1, confidence_bar.
    destruct (int_of_float _) as [e|n] eqn:I.
    + split; [intros [b H]; discriminate H|].
      intros F; inversion F as [|? ? K]; subst.
      unfold printable in K; rewrite I in K; discriminate K.
    + split.
      * intros [bars H].
        destruct (print_solutions l) as [e|bs]; [discriminate H|].
        constructor; [unfold printable; now rewrite I|].
        apply IH; now exists bs.
      * intros F; inversion F as [|? ? _ F']; subst.
        apply IH in F'; destruct F' as [bs ->]; eexists; reflexivity.
Qed.


Lemma printing_returned (l l' : list solution) :
  display_hackathon_results_printing l = inr l' ->
  l' = display_hackathon_results l
  /\ Forall (fun s => printable s = true) l.
Proof.
  destruct l as [|a l].
  - intros H; inversion H; split; [reflexivity|constructor].
  - set (l0 := a :: l).
    assert (Q : Permutation l0 (list_sort_reverse confidence_lt l0))
      by apply list_sort_reverse_permutation.
    unfold display_hackathon_results_printing, display_hackathon_results.
    fold l0; intros H.
    destruct (print_solutions _) as [e|bars] eqn:E; [discriminate H|].
    inversion H; split; [reflexivity|].
    apply (Permutation_Forall (Permutation_sym Q)).
    apply print_solutions_defined; now exists bars.
Qed.



(** X9.  One entry whose confidence is a NaN or an infinity is enough:
    the printing loop raises, and [display_hackathon_results] returns
    nothing. *)
Theorem printing_raises_on_nan_or_infinity (l : list solution)
    (s : solution) :
  In s l ->
  confidence s = S754_nan \/ (exists sign, confidence s = S754_infinity sign) ->
  exists e, display_hackathon_results_printing l = inl e.
Proof.
  intros M C.
  destruct (display_hackathon_results_printing l) as [e|l'] eqn:D;
    [now exists e|exfalso].
  apply printing_returned in D.
  destruct D as [_ F].
  rewrite Forall_forall in F; specialize (F s M).
  unfold printable in F.
  destruct C as [C|[sign C]]; rewrite C in F.
  - discriminate F.
  - destruct sign; discriminate F.
Qed.

Lemma printing_raises_on_nan_or_infinity_witness :
  exists e,
    display_hackathon_results_printing
      [probe fallback_confidence; probe S754_nan] = inl e.
Proof.
  apply (printing_raises_on_nan_or_infinity
           [probe fallback_confidence; probe S754_nan] (probe S754_nan)).
  - right; left; reflexivity.
  - left; reflexivity.
Defined.

(** ** Rows that can be described *)

Lemma py_getitem_nth {A : Type} (l : list A) (i : Z) (d : A) :
  0 <= i < len l -> py_getitem l i = Ok (nth (Z.to_nat i) l d).
Proof.
  intros B; unfold py_getitem.
  destruct (i <? 0) eqn:N; [apply Z.ltb_lt in N; lia|].
  assert (L : (0 <=? i) = true) by (apply Z.leb_le; lia).
  assert (U : (i <? len l) = true) by (apply Z.ltb_lt; lia).
  rewrite L, U; simpl.
  assert (K : (Z.to_nat i < length l)%nat) by (unfold len in B; lia).
  now rewrite (nth_error_nth' l d K).
Qed.

Lemma clean_text_defined (v : pyval) :
  (exists t, clean_text v = Ok t) <-> is_text_or_none v = true.
Proof.
  destruct v; simpl; split; intros H;
    try reflexivity; try (eexists; reflexivity);
    try discriminate H; destruct H as [t H]; discriminate H.
Qed.

Lemma describe_row_of_four (row : doc) :
  4 <= len row ->
  is_text_or_none (nth 1 row PNone) = true ->
  is_text_or_none (nth 2 row PNone) = true ->
  is_text_or_none (nth 3 row PNone) = true ->
  exists t, describe_row row = Ok t.
Proof.
  intros L A B C; unfold describe_row.
  rewrite (py_getitem_nth row 1 PNone), (py_getitem_nth row 2 PNone),
    (py_getitem_nth row 3 PNone) by lia.
  change (Z.to_nat 1) with 1%nat; change (Z.to_nat 2) with 2%nat;
    change (Z.to_nat 3) with 3%nat.
  apply clean_text_defined in A; destruct A as [ta A].
  apply clean_text_defined in B; destruct B as [tb B].
  apply clean_text_defined in C; destruct C as [tc C].
  simpl bind; rewrite A; simpl bind; rewrite B; simpl bind; rewrite C.
  eexists; reflexivity.
Qed.

(** X10.  A row can be turned into its text exactly when it has four
    items at least and its failure, root cause and solution are text or
    [None]; a shorter row, or a number in one of the three places, makes
    [describe_row] raise. *)
Theorem describe_row_defined_iff (row : doc) :
  (exists t, describe_row row = Ok t)
  <-> (4 <= len row
       /\ is_text_or_none (nth 1 row PNone) = true
       /\ is_text_or_none (nth 2 row PNone) = true
       /\ is_text_or_none (nth 3 row PNone) = true).
Proof.
  split.
  - intros [t H].
    pose proof (describe_row_defined row t H) as L.
    unfold describe_row in H.
    rewrite (py_getitem_nth row 1 PNone), (py_getitem_nth row 2 PNone),
      (py_getitem_nth row 3 PNone) in H by lia.
    change (Z.to_nat 1) with 1%nat in H; change (Z.to_nat 2) with 2%nat in H;
      change (Z.to_nat 3) with 3%nat in H.
    simpl bind in H.
    destruct (clean_text (nth 1 row PNone)) as [ta|e] eqn:A;
      [|discriminate H]; simpl bind in H.
    destruct (clean_text (nth 2 row PNone)) as [tb|e] eqn:B;
      [|discriminate H]; simpl bind in H.
    destruct (clean_text (nth 3 row PNone)) as [tc|e] eqn:C;
      [|discriminate H].
    split; [exact L|].
    repeat split; apply clean_text_defined; eexists; eassumption.
  - intros (L & A & B & C); now apply describe_row_of_four.
Qed.

Lemma describe_row_defined_iff_witness :
  exists t, describe_row (sample_row 0) = Ok t.
Proof.
  apply (proj2 (describe_row_defined_iff (sample_row 0))).
  vm_compute; repeat split; discriminate.
Defined.

(** ** The knowledge base *)

Lemma rows_of_issues_length (l : list issue) (start : Z) :
  Forall (fun row => length row = 4%nat)
    (map row_of (enumerate_from start l)).
Proof.
  revert start; induction l as [|kb l IH]; intros start; simpl;
    constructor; [reflexivity|apply IH].
Qed.

Lemma get_devops_knowledgebase_cases (db : database) :
  (exists i l, load_from_database db = Some (i :: l)
               /\ get_devops_knowledgebase db = map row_of (enumerate (i :: l)))
  \/ get_devops_knowledgebase db
     = map row_of (enumerate create_devops_knowledge_base).
Proof.
  unfold get_devops_knowledgebase.
  destruct (load_from_database db) as [[|i l]|].
  - now right.
  - left; exists i, l; split; reflexivity.
  - now right.
Qed.

(** X11.  The knowledge base is never empty, whatever the database
    holds: with no file, an unreadable file or an empty table the eight
    built-in entries are used.  So [test_ai_engine] always answers
    [True]. *)
Theorem knowledgebase_never_empty (db : database) :
  get_devops_knowledgebase db <> [] /\ test_ai_engine db = true.
Proof.
  assert (N : get_devops_knowledgebase db <> []).
  { destruct (get_devops_knowledgebase_cases db) as [(i & l & _ & ->)| ->];
      discriminate. }
  split; [exact N|].
  unfold test_ai_engine, len.
  destruct (get_devops_knowledgebase db); [congruence|reflexivity].
Qed.

(** X12.  Every row of the knowledge base has exactly four items: the
    id, the failure, the root cause and the solution. *)
Theorem knowledgebase_rows_have_four_items (db : database) :
  Forall (fun row => length row = 4%nat) (get_devops_knowledgebase db).
Proof.
  destruct (get_devops_knowledgebase_cases db) as [(i & l & _ & ->)| ->];
    apply rows_of_issues_length.
Qed.

Lemma columns_of_rows (rows : list (pyval * pyval * pyval)) (start : Z) :
  map columns_of
    (map row_of
       (enumerate_from start
          (map (fun '(f, r, s) =>
                  {| kb_failure := f; kb_root_cause := r; kb_solution := s |})
             rows)))
  = rows.
Proof.
  revert start; induction rows as [|[[f r] s] rows IH]; intros start; simpl;
    [reflexivity|].
  now rewrite IH.
Qed.

(** X13.  When the database holds rows, the knowledge base is these
    rows, in their order and with their three columns unchanged, each
    behind its id. *)
Theorem knowledgebase_keeps_database_rows
    (rows : list (pyval * pyval * pyval)) :
  rows <> [] ->
  map columns_of (get_devops_knowledgebase (Rows rows)) = rows.
Proof.
  intros N; unfold get_devops_knowledgebase; simpl.
  destruct rows as [|[[f r] s] rows]; [congruence|].
  apply (columns_of_rows ((f, r, s) :: rows) 0).
Qed.

Lemma knowledgebase_keeps_database_rows_witness :
  map columns_of (get_devops_knowledgebase sample_database)
  = [(PStr (lit "Build timeout"), PStr (lit "Slow agent"),
      PStr (lit "1. Raise the limit"));
     (PStr (lit "Disk full"), PNone, PStr (lit "Clean the workspace"))].
Proof.
  apply (knowledgebase_keeps_database_rows
           [(PStr (lit "Build timeout"), PStr (lit "Slow agent"),
             PStr (lit "1. Raise the limit"));
            (PStr (lit "Disk full"), PNone,
             PStr (lit "Clean the workspace"))]).
  discriminate.
Defined.

Lemma for_each_all {A B : Type} (f : A -> result B) (l : list A) :
  Forall (fun a => exists b, f a = Ok b) l ->
  exists bs, for_each f l = Ok bs.
Proof.
  induction 1 as [|a l [b E] F [bs IH]]; simpl.
  - now exists [].
  - rewrite E, IH; simpl; eexists; reflexivity.
Qed.

Lemma rows_describable (l : list issue) (start : Z) :
  Forall (fun kb => is_text_or_none (kb_failure kb) = true
                    /\ is_text_or_none (kb_root_cause kb) = true
                    /\ is_text_or_none (kb_solution kb) = true) l ->
  Forall (fun row => exists t, describe_row row = Ok t)
    (map row_of (enumerate_from start l)).
Proof.
  intros F; revert start.
  induction F as [|kb l (A & B & C) F IH]; intros start; simpl;
    constructor; [|apply IH].
  apply describe_row_of_four; [unfold len; simpl; lia|exact A|exact B|exact C].
Qed.

Lemma builtin_entries_textual :
  Forall (fun kb => is_text_or_none (kb_failure kb) = true
                    /\ is_text_or_none (kb_root_cause kb) = true
                    /\ is_text_or_none (kb_solution kb) = true)
    create_devops_knowledge_base.
Proof. repeat constructor. Qed.

Lemma rows_of_knowledgebase_describable (db : database) :
  textual db ->
  Forall (fun row => exists t, describe_row row = Ok t)
    (get_devops_knowledgebase db).
Proof.
  intros T.
  destruct (get_devops_knowledgebase_cases db) as [(i & l & L & ->)| ->].
  - apply rows_describable.
    destruct db as [| |rows]; simpl in L; try discriminate L.
    injection L as E.
    simpl in T; rewrite <- E.
    apply Forall_map.
    eapply Forall_impl; [|exact T].
    now intros [[f r] s].
  - apply rows_describable, builtin_entries_textual.
Qed.

(** X14.  When the columns of the database hold text or NULL (and
    always when the built-in entries are used), every row of the
    knowledge base can be turned into its text: building the texts to
    embed raises nothing and gives one text for each row. *)
Theorem knowledgebase_rows_describable (db : database) :
  textual db ->
  exists texts,
    for_each describe_row (get_devops_knowledgebase db) = Ok texts
    /\ length texts = length (get_devops_knowledgebase db).
Proof.
  intros T.
  apply rows_of_knowledgebase_describable, for_each_all in T.
  destruct T as [texts E].
  exists texts; split; [exact E|now apply for_each_length in E].
Qed.

Lemma knowledgebase_rows_describable_witness :
  exists texts,
    for_each describe_row (get_devops_knowledgebase sample_database)
    = Ok texts
    /\ length texts = length (get_devops_knowledgebase sample_database).
Proof.
  apply (knowledgebase_rows_describable sample_database).
  repeat constructor.
Defined.

(** ** Retrieval *)

(** X15.  [query_faiss_index] never raises: whatever the index, the
    model and the metadata file do, and whatever positions the search
    names, it returns two lists. *)
Theorem retrieval_never_raises {model index vector : Type}
    (st : index_store model index vector) (embedding_model : model)
    (query : text) :
  exists cleaned docs,
    query_faiss_index st embedding_model query = Ok (cleaned, docs).
Proof.
  destruct (query_faiss_index_total st embedding_model query)
    as [[cleaned docs] H].
  now exists cleaned, docs.
Qed.

Lemma for_each_members {A B : Type} (f : A -> result B) (l : list A)
    (bs : list B) :
  for_each f l = Ok bs ->
  Forall (fun b => exists a, In a l /\ f a = Ok b) bs.
Proof.
  revert bs; induction l as [|a l IH]; intros bs H; simpl in H.
  - inversion H; constructor.
  - destruct (f a) as [b|e] eqn:E; [|discriminate H]; simpl in H.
    destruct (for_each f l) as [bs'|e]; [|discriminate H]; simpl in H.
    inversion H; subst; clear H.
    constructor; [exists a; split; [now left|exact E]|].
    eapply Forall_impl; [|exact (IH bs' eq_refl)].
    intros b' (a' & M & K); exists a'; split; [now right|exact K].
Qed.

Lemma py_getitem_member {A : Type} (l : list A) (i : Z) (a : A) :
  py_getitem l i = Ok a -> In a l.
Proof.
  unfold py_getitem.
  destruct (_ && _); [|discriminate].
  destruct (nth_error l _) as [x|] eqn:E; [|discriminate].
  intros H; inversion H; subst; now apply nth_error_In in E.
Qed.

(** X16.  The two lists [query_faiss_index] returns are aligned: the
    text at a position describes the row at that position.  And when it
    returns rows, they are rows of the metadata file. *)
Theorem retrieval_lists_are_aligned {model index vector : Type}
    (st : index_store model index vector) (embedding_model : model)
    (query : text) (cleaned : list text) (docs : list doc) :
  query_faiss_index st embedding_model query = Ok (cleaned, docs) ->
  for_each describe_row docs = Ok cleaned
  /\ (docs = []
      \/ exists indexed_data,
           load_indexed_data st = Ok indexed_data
           /\ Forall (fun d => In d indexed_data) docs).
Proof.
  unfold query_faiss_index.
  destruct (query_faiss_index_body st embedding_model query)
    as [[c d]|e] eqn:B; simpl.
  - intros H; inversion H; subst; clear H.
    unfold query_faiss_index_body in B.
    destruct (read_index st); [|discriminate B]; simpl in B.
    destruct (encode st embedding_model query); [|discriminate B];
      simpl in B.
    destruct (load_indexed_data st) as [data|]; [|discriminate B];
      simpl in B.
    destruct (search st _ _ _); [|discriminate B]; simpl in B.
    destruct (for_each (py_getitem _) _) as [rows|] eqn:G;
      [|discriminate B]; simpl in B.
    destruct (for_each describe_row _) as [c'|] eqn:D; [|discriminate B].
    simpl in B; inversion B; subst; clear B.
    split; [exact D|right].
    exists data; split; [reflexivity|].
    apply for_each_members in G.
    eapply Forall_impl; [|exact G].
    intros row (i & _ & K); now apply py_getitem_member in K.
  - destruct (is_FileNotFoundError e); simpl; intros H; inversion H;
      split; auto.
Qed.

Lemma retrieval_lists_are_aligned_witness :
  exists cleaned docs,
    query_faiss_index sound_store tt (lit "build failed")
    = Ok (cleaned, docs)
    /\ docs = [sample_row 2; sample_row 0]
    /\ for_each describe_row docs = Ok cleaned.
Proof.
  do 2 eexists; split; [vm_compute; reflexivity|].
  split; [reflexivity|].
  apply (retrieval_lists_are_aligned sound_store tt (lit "build failed")).
  vm_compute; reflexivity.
Defined.

Lemma for_each_fails {A B : Type} (f : A -> result B) (l : list A) (a : A)
    (e : exn) :
  In a l -> f a = Raise e -> exists e', for_each f l = Raise e'.
Proof.
  induction l as [|x l IH]; intros M E; [destruct M|].
  simpl; destruct M as [->|M].
  - rewrite E; now exists e.
  - destruct (f x) as [b|e1]; [|now exists e1]; simpl.
    destruct (IH M E) as [e' ->]; now exists e'.
Qed.

Lemma py_getitem_outside {A : Type} (l : list A) (i : Z) :
  len l <= i \/ i < - len l ->
  exists e, py_getitem l i = Raise e.
Proof.
  intros O; unfold py_getitem.
  destruct (i <? 0) eqn:N;
    [apply Z.ltb_lt in N|apply Z.ltb_ge in N].
  - destruct O as [O|O]; [unfold len in O; lia|].
    assert (L : (0 <=? i + len l) = false) by (apply Z.leb_gt; lia).
    rewrite L; simpl; eexists; reflexivity.
  - destruct O as [O|O]; [|unfold len in O; lia].
    assert (U : (i <? len l) = false) by (apply Z.ltb_ge; lia).
    rewrite U, andb_false_r; eexists; reflexivity.
Qed.

(** X17.  An index that is out of step with the metadata file gives no
    candidates: when the search names a position other than -1 that is
    outside the metadata (beyond its end, or below minus its length),
    [query_faiss_index] returns the two empty lists, also for the
    positions that were good. *)
Theorem stale_index_gives_no_candidates {model index vector : Type}
    (st : index_store model index vector) (embedding_model : model)
    (query : text) (idx : index) (v : vector) (indexed_data : list doc)
    (indices : list Z) (position : Z) :
  read_index st = Ok idx ->
  encode st embedding_model query = Ok v ->
  load_indexed_data st = Ok indexed_data ->
  search st idx v 5 = Ok indices ->
  In position indices ->
  position <> -1 ->
  len indexed_data <= position \/ position < - len indexed_data ->
  query_faiss_index st embedding_model query = Ok ([], []).
Proof.
  intros R E L S M N O.
  destruct (py_getitem_outside indexed_data position O) as [e G].
  assert (F : In position (filter (fun i => negb (i =? -1)) indices)).
  { apply filter_In; split; [exact M|].
    apply negb_true_iff, Z.eqb_neq, N. }
  destruct (for_each_fails _ _ _ _ F G) as [e' K].
  apply query_faiss_index_handles with e'.
  unfold query_faiss_index_body.
  rewrite R; simpl; rewrite E; simpl; rewrite L; simpl; rewrite S; simpl.
  now rewrite K.
Qed.

Lemma stale_index_gives_no_candidates_witness :
  query_faiss_index stale_store tt (lit "build failed") = Ok ([], []).
Proof.
  apply (stale_index_gives_no_candidates stale_store tt (lit "build failed")
           tt tt (sample_rows 3) [0; 3; -1] 3); try reflexivity.
  - right; left; reflexivity.
  - discriminate.
  - left; vm_compute; discriminate.
Defined.

(** ** Texts that cleaning leaves alone *)

(** X18.  The texts [clean_text] returns unchanged are exactly those made
    of letters, digits, underscores and whitespace other than the
    newline; and every text it returns is one of them. *)
Theorem clean_text_fixed_points (s : text) :
  (clean_text (PStr s) = Ok s <-> plain s)
  /\ (forall y, clean_text (PStr s) = Ok y -> plain y).
Proof.
  split; [split|].
  - intros H c; now apply (clean_text_characters s s).
  - apply clean_text_fixes_clean.
  - intros y H c; now apply (clean_text_characters s y).
Qed.

Lemma clean_text_fixed_points_witness :
  plain (lit "build failed on node 3").
Proof.
  apply (proj1 (proj1 (clean_text_fixed_points
                         (lit "build failed on node 3")))).
  vm_compute; reflexivity.
Defined.

(** ** Building the index *)

Lemma slice_clamped {A : Type} (l : list A) (i k : nat) :
  slice l i (i + k) = slice l i (Nat.min (i + k) (length l)).
Proof.
  unfold slice.
  destruct (Nat.le_gt_cases (i + k) (length l)) as [H|H].
  - now rewrite Nat.min_l.
  - rewrite Nat.min_r by lia.
    rewrite (firstn_all2 (n := i + k - i)) by (rewrite length_skipn; lia).
    rewrite (firstn_all2 (n := length l - i)) by (rewrite length_skipn; lia).
    reflexivity.
Qed.

Lemma chunks_concat (texts : list text) (size : nat) :
  (0 < size)%nat ->
  exists starts,
    py_range (length texts) size = Ok starts
    /\ concat (map (chunk_at texts size) starts) = texts.
Proof.
  intros P; unfold py_range.
  destruct size as [|c]; [lia|].
  eexists; split; [reflexivity|].
  pose proof (chunks_cover (length texts) (S c) P) as C.
  rewrite chunks_prefix by lia.
  apply firstn_all2; lia.
Qed.

Section VectorizeFacts.
Variable vector : Type.
Variable embed : text -> vector.
Variable encode : list text -> result (list vector).
Hypothesis encode_each : forall batch, encode batch = Ok (map embed batch).

Lemma encode_batches_concat (texts : list text) (starts : list nat) :
  forall embeddings,
    Vectorize.encode_batches vector encode texts starts embeddings
    = Ok (embeddings
          ++ map embed
               (concat (map (chunk_at texts Vectorize.batch_size) starts))).
Proof.
  induction starts as [|i rest IH]; intros embeddings; simpl.
  - now rewrite app_nil_r.
  - rewrite encode_each; simpl.
    rewrite IH, map_app, app_assoc.
    unfold chunk_at at 2, chunk_end.
    now rewrite slice_clamped.
Qed.
End VectorizeFacts.

(** X19.  When the model embeds the texts of a batch one by one and in
    their order, [vectorize_devops_data] hands on one embedding for each
    row of the knowledge base, in the order of the rows: the batches of
    100 lose no text, repeat none and keep the order. *)
Theorem vectorize_embeds_every_row_in_order (vector : Type)
    (embed : text -> vector) (encode : list text -> result (list vector))
    (persist : list vector -> list doc -> result unit)
    (data : list doc) (texts : list text) :
  (forall batch, encode batch = Ok (map embed batch)) ->
  for_each describe_row data = Ok texts ->
  Vectorize.vectorize_devops_data vector encode persist data
  = persist (map embed texts) data
  /\ length (map embed texts) = length data.
Proof.
  intros E T; split.
  - destruct (chunks_concat texts 100 ltac:(lia)) as (starts & R & C).
    unfold Vectorize.vectorize_devops_data, Vectorize.batch_size.
    rewrite T; cbn [bind].
    rewrite R; cbn [bind].
    rewrite (encode_batches_concat vector embed encode E).
    unfold Vectorize.batch_size; rewrite C.
    reflexivity.
  - rewrite length_map; now apply for_each_length in T.
Qed.

Lemma vectorize_embeds_every_row_in_order_witness :
  Vectorize.vectorize_devops_data nat (fun batch => Ok (map (@length ascii) batch))
    (fun embeddings data =>
       if (length embeddings =? length data)%nat then Ok tt
       else Raise (RuntimeError "misaligned"))
    (get_devops_knowledgebase NoDatabase)
  = Ok tt.
Proof.
  destruct (for_each_all _ _ (rows_of_knowledgebase_describable NoDatabase I))
    as (texts & T).
  destruct (vectorize_embeds_every_row_in_order nat (@length ascii)
              (fun batch => Ok (map (@length ascii) batch))
              (fun embeddings data =>
                 if (length embeddings =? length data)%nat then Ok tt
                 else Raise (RuntimeError "misaligned"))
              (get_devops_knowledgebase NoDatabase) texts
              (fun _ => eq_refl) T) as [V K].
  rewrite V, K, Nat.eqb_refl; reflexivity.
Defined.

(** ** Fetching the log of a pipeline *)

Example jenkins_url_extracted :
  Pipeline.extracted_url jenkins_query
  = Some (lit "HTTPS://ci.example.com/Jenkins/job/app/42/").
Proof. vm_compute. reflexivity. Qed.

Example console_url_of_jenkins_url :
  Pipeline.console_url_of (lit "HTTPS://ci.example.com/Jenkins/job/app/42/")
  = lit "HTTPS://ci.example.com/Jenkins/job/app/42/consoleText".
Proof. vm_compute. reflexivity. Qed.

Example status_marker :
  Pipeline.detect_and_process_pipeline_query
    (fun _ => Pipeline.Responded 503 []) jenkins_query
  = Ok (Some (PipelineError "status_503",
              lit "Could not fetch pipeline logs from HTTPS://ci.example.com/Jenkins/job/app/42/")).
Proof. vm_compute. reflexivity. Qed.







Lemma starts_with_firstn (needle hay : text) :
  starts_with needle hay = true -> firstn (length needle) hay = needle.
Proof.
  revert hay; induction needle as [|a n IH]; intros hay S; [reflexivity|].
  destruct hay as [|c h]; [discriminate S|].
  simpl in *.
  apply andb_true_iff in S; destruct S as [E S].
  apply Ascii.eqb_eq in E; subst c.
  now rewrite IH.
Qed.














(** ** The address of the console log *)

Lemma starts_with_app (needle rest : text) :
  starts_with needle (needle ++ rest) = true.
Proof.
  induction needle as [|a n IH]; simpl; [reflexivity|].
  unfold chr_eqb; now rewrite Ascii.eqb_refl.
Qed.

Lemma ends_with_app (suffix s : text) :
  Pipeline.ends_with suffix (s ++ suffix) = true.
Proof.
  unfold Pipeline.ends_with; rewrite rev_app_distr; apply starts_with_app.
Qed.

Lemma ends_with_split (suffix s : text) :
  Pipeline.ends_with suffix s = true -> exists pre, s = pre ++ suffix.
Proof.
  unfold Pipeline.ends_with; intros H.
  pose proof (starts_with_firstn _ _ H) as P.
  exists (rev (skipn (length (rev suffix)) (rev s))).
  rewrite <- (rev_involutive s) at 1.
  rewrite <- (firstn_skipn (length (rev suffix)) (rev s)) at 1.
  rewrite P, rev_app_distr.
  now rewrite rev_involutive.
Qed.

(** X22.  The address that is requested always ends with
    [/consoleText], and with one slash before it when the URL already
    ended with a slash; an address that ends so is left as it is. *)
Theorem console_url_ends_with_consoleText (url : text) :
  Pipeline.ends_with (lit "/consoleText") (Pipeline.console_url_of url) = true
  /\ Pipeline.console_url_of (Pipeline.console_url_of url)
     = Pipeline.console_url_of url
  /\ (Pipeline.ends_with (lit "/") url = true ->
      Pipeline.ends_with (lit "/consoleText") url = false ->
      Pipeline.console_url_of url = url ++ lit "consoleText").
Proof.
  assert (E : Pipeline.ends_with (lit "/consoleText")
                (Pipeline.console_url_of url) = true).
  { unfold Pipeline.console_url_of.
    destruct (Pipeline.ends_with (lit "/consoleText") url) eqn:A; [exact A|].
    destruct (Pipeline.ends_with (lit "/") url) eqn:B.
    - apply ends_with_split in B; destruct B as [pre ->].
      rewrite <- app_assoc.
      apply (ends_with_app (lit "/consoleText") pre).
    - apply ends_with_app. }
  split; [exact E|split].
  - unfold Pipeline.console_url_of at 1; now rewrite E.
  - intros B A; unfold Pipeline.console_url_of; now rewrite A, B.
Qed.

Lemma console_url_ends_with_consoleText_witness :
  Pipeline.console_url_of (lit "https://ci.example.com/job/app/42/")
  = lit "https://ci.example.com/job/app/42/" ++ lit "consoleText".
Proof.
  apply (proj2 (proj2 (console_url_ends_with_consoleText
                         (lit "https://ci.example.com/job/app/42/")))).
  - vm_compute; reflexivity.
  - vm_compute; reflexivity.
Defined.

(** ** Requests that fail *)

(** X23.  Once a URL is taken from the query, the fetcher answers with a
    marker and a text in place of the query, and raises only what
    [requests.get] raises outside the exceptions of [requests]: a
    timeout, a failed connection and every status but 200 give an error
    marker. *)
Theorem failed_request_becomes_a_marker
    (requests_get : text -> Pipeline.http_outcome) (input_query url : text) :
  Pipeline.extracted_url input_query = Some url ->
  (forall e, requests_get (Pipeline.console_url_of url) <> Pipeline.Failed e) ->
  exists marker effective_query,
    Pipeline.detect_and_process_pipeline_query requests_get input_query
    = Ok (Some (marker, effective_query))
    /\ marker <> UserInput
    /\ ((forall body, requests_get (Pipeline.console_url_of url)
                      <> Pipeline.Responded 200 body) ->
        is_error_marker marker = true).
Proof.
  intros E N; unfold Pipeline.detect_and_process_pipeline_query; rewrite E.
  destruct (requests_get (Pipeline.console_url_of url))
    as [status body| |detail|e] eqn:G.
  - destruct (status =? 200) eqn:S.
    + apply Z.eqb_eq in S; subst status.
      destruct (Pipeline.error_lines_of body); do 2 eexists;
        (split; [reflexivity|split; [discriminate|]]);
        intros K; now destruct (K body).
    + destruct (status =? 401); do 2 eexists;
        (split; [reflexivity|split; [discriminate|reflexivity]]).
  - do 2 eexists; split; [reflexivity|split; [discriminate|reflexivity]].
  - do 2 eexists; split; [reflexivity|split; [discriminate|reflexivity]].
  - now destruct (N e).
Qed.

Lemma failed_request_becomes_a_marker_witness :
  exists marker effective_query,
    Pipeline.detect_and_process_pipeline_query (fun _ => Pipeline.TimedOut)
      jenkins_query
    = Ok (Some (marker, effective_query))
    /\ marker <> UserInput
    /\ ((forall body, Pipeline.TimedOut <> Pipeline.Responded 200 body) ->
        is_error_marker marker = true).
Proof.
  apply (failed_request_becomes_a_marker (fun _ => Pipeline.TimedOut)
           jenkins_query (lit "HTTPS://ci.example.com/Jenkins/job/app/42/")).
  - vm_compute; reflexivity.
  - discriminate.
Defined.

(** ** The summary of a console log *)






(** ** The endpoint of the API *)

Lemma slice_until_prefix {A : Type} (l : list A) (stop : option Z) :
  exists rest, l = Api.slice_until l stop ++ rest.
Proof.
  destruct stop as [n|]; simpl.
  - destruct (0 <=? n); eexists; symmetry; apply firstn_skipn.
  - exists []; now rewrite app_nil_r.
Qed.

Lemma selected_solutions_prefix (query : Api.DevOpsQuery)
    (solutions : list solution) :
  exists rest,
    (if Api.truthy (Api.include_confidence query)
     then filter Api.above_threshold solutions
     else solutions)
    = Api.selected_solutions query solutions ++ rest.
Proof.
  destruct solutions as [|a l].
  - exists []; simpl; now destruct (Api.truthy _).
  - unfold Api.selected_solutions; apply slice_until_prefix.
Qed.

Lemma above_threshold_number (s : solution) :
  Api.above_threshold s = true -> is_nan (confidence s) = false.
Proof.
  unfold Api.above_threshold.
  destruct (confidence s); [reflexivity|reflexivity|discriminate|reflexivity].
Qed.

(** X25.  When the request asks for the confidence filter (the default),
    every solution the endpoint selects for its answer comes from the
    list [main] returned and has a confidence that is a number above 0.6:
    an entry with a NaN does not pass. *)
Theorem api_solutions_exceed_threshold (query : Api.DevOpsQuery)
    (solutions : list solution) :
  Api.include_confidence query = Some true ->
  Forall (fun s => In s solutions
                   /\ fltb threshold (confidence s) = true
                   /\ is_nan (confidence s) = false)
    (Api.selected_solutions query solutions).
Proof.
  intros I.
  destruct (selected_solutions_prefix query solutions) as [rest P].
  rewrite I in P; simpl in P.
  apply Forall_forall; intros s M.
  assert (F : In s (filter Api.above_threshold solutions))
    by (rewrite P; apply in_or_app; now left).
  apply filter_In in F; destruct F as [F T].
  split; [exact F|split; [exact T|now apply above_threshold_number]].
Qed.

Lemma api_solutions_exceed_threshold_witness :
  Forall (fun s => In s [probe S754_nan; probe fallback_confidence;
                         probe threshold]
                   /\ fltb threshold (confidence s) = true
                   /\ is_nan (confidence s) = false)
    (Api.selected_solutions (default_request (lit "build failed"))
       [probe S754_nan; probe fallback_confidence; probe threshold]).
Proof.
  apply (api_solutions_exceed_threshold (default_request (lit "build failed"))
           [probe S754_nan; probe fallback_confidence; probe threshold]).
  reflexivity.
Defined.

(** X26.  The endpoint selects a prefix of the list it filtered, and for
    a [max_solutions] that is not negative no more than that many
    solutions: all of them when there are fewer. *)
Theorem api_limits_the_count (query : Api.DevOpsQuery)
    (solutions : list solution) (n : Z) :
  Api.max_solutions query = Some n ->
  0 <= n ->
  let filtered :=
    if Api.truthy (Api.include_confidence query)
    then filter Api.above_threshold solutions
    else solutions in
  (exists rest, filtered = Api.selected_solutions query solutions ++ rest)
  /\ len (Api.selected_solutions query solutions) = Z.min n (len filtered).
Proof.
  intros M P filtered.
  split; [apply selected_solutions_prefix|].
  destruct solutions as [|a l].
  - subst filtered; destruct (Api.truthy _); simpl; unfold len; simpl; lia.
  - change (Api.selected_solutions query (a :: l))
      with (Api.slice_until filtered (Api.max_solutions query)).
    rewrite M; unfold Api.slice_until.
    apply Z.leb_le in P; rewrite P; apply Z.leb_le in P.
    unfold len; rewrite length_firstn; lia.
Qed.

Lemma api_limits_the_count_witness :
  let filtered :=
    filter Api.above_threshold (repeat (probe fallback_confidence) 7) in
  (exists rest,
     filtered
     = Api.selected_solutions (default_request (lit "build failed"))
         (repeat (probe fallback_confidence) 7) ++ rest)
  /\ len (Api.selected_solutions (default_request (lit "build failed"))
            (repeat (probe fallback_confidence) 7))
     = Z.min 5 (len filtered).
Proof.
  apply (api_limits_the_count (default_request (lit "build failed"))
           (repeat (probe fallback_confidence) 7) 5).
  - reflexivity.
  - lia.
Defined.



(** ** The whole run *)

Lemma py_range_single (n : nat) :
  (0 < n <= 10)%nat -> py_range n 10 = Ok [0%nat].
Proof.
  intros B.
  change (py_range n 10)
    with (Ok (map (fun k => (k * 10)%nat) (seq 0 ((n + 10 - 1) / 10)))).
  assert (D : ((n + 10 - 1) / 10 = 1)%nat).
  { symmetry; apply (Nat.div_unique _ 10 1 (n - 1)); lia. }
  now rewrite D.
Qed.

Lemma query_llm_model_single_fallback
    (ollama_chat : nat -> prompt -> result text)
    (cleaned : list text) (issue_description : text) (docs : list doc) :
  candidates cleaned docs ->
  docs <> [] ->
  (length docs <= 10)%nat ->
  (forall chunk_start request,
     exists e, ollama_chat chunk_start request = Raise e) ->
  query_llm_model ollama_chat cleaned issue_description docs 10
  = Ok [fallback_entry docs 0].
Proof.
  intros W NE L U.
  assert (P : (0 < length docs)%nat)
    by (destruct docs; [congruence|simpl; lia]).
  unfold query_llm_model.
  destruct docs as [|d ds] eqn:D; [congruence|].
  rewrite <- D in *.
  rewrite py_range_single by (destruct W as [-> _]; lia).
  cbn [bind].
  rewrite (score_chunks_fallback ollama_chat cleaned issue_description docs
             10 U W) by (intros s [<-|[]]; exact P).
  cbn [bind app].
  now rewrite display_fallback_entries.
Qed.

(** X28.  When everything works but the LLM, and retrieval finds at
    least one row and ten at most (it asks for five), a run ends with one
    solution: the first row retrieval returned, with the confidence 0.8.
    Nothing is reported as an error, and the endpoint selects this
    solution under the defaults of a request. *)
Theorem main_falls_back_without_llm {model index vector : Type}
    (w : world model index vector) (input_query : text) (m : model)
    (marker : source_marker) (query : text) (done : unit)
    (cleaned : list text) (docs : list doc) :
  get_embedding_model w = Ok m ->
  get_actual_devops_data w input_query = Ok (marker, query) ->
  vectorize_devops_data w (get_devops_knowledgebase (knowledge_db w)) m
  = Ok done ->
  query_faiss_index (store w) m query = Ok (cleaned, docs) ->
  docs <> [] ->
  (length docs <= 10)%nat ->
  (forall chunk_start request,
     exists e, ollama_chat w chunk_start request = Raise e) ->
  main w (Some input_query)
  = {| returned := Ok [fallback_entry docs 0]; printed := [] |}
  /\ Api.analyze_devops_issue w (default_request input_query)
     = Ok [fallback_entry docs 0].
Proof.
  intros M A V Q NE L U.
  assert (R : main w (Some input_query)
              = {| returned := Ok [fallback_entry docs 0]; printed := [] |}).
  { unfold main, main_body.
    rewrite M; cbn [bind]; rewrite A; cbn [bind]; rewrite V; cbn [bind].
    rewrite Q; cbn [bind].
    rewrite (query_llm_model_single_fallback (ollama_chat w) cleaned query
               docs (query_faiss_index_candidates _ _ _ _ _ Q) NE L U).
    reflexivity. }
  split; [exact R|].
  unfold Api.analyze_devops_issue, default_request; cbn [Api.issue].
  rewrite R; reflexivity.
Qed.

Lemma main_falls_back_without_llm_witness :
  main world_without_llm (Some (lit "build failed"))
  = {| returned := Ok [fallback_entry [sample_row 2; sample_row 0] 0];
       printed := [] |}
  /\ Api.analyze_devops_issue world_without_llm
       (default_request (lit "build failed"))
     = Ok [fallback_entry [sample_row 2; sample_row 0] 0].
Proof.
  apply (main_falls_back_without_llm world_without_llm (lit "build failed")
           tt UserInput (lit "build failed") tt
           (map (fun d => match describe_row d with Ok t => t | Raise _ => [] end)
              [sample_row 2; sample_row 0])
           [sample_row 2; sample_row 0]).
  - reflexivity.
  - reflexivity.
  - reflexivity.
  - vm_compute; reflexivity.
  - discriminate.
  - simpl; lia.
  - intros s p; eexists; reflexivity.
Defined.

(** X29.  When everything works but retrieval, a run ends with the empty
    list and without the line of the error handler: the LLM is not asked,
    and the endpoint has no solution to answer with. *)
Theorem main_is_silent_without_retrieval {model index vector : Type}
    (w : world model index vector) (input_query : text) (m : model)
    (marker : source_marker) (query : text) (done : unit) (e : exn) :
  get_embedding_model w = Ok m ->
  get_actual_devops_data w input_query = Ok (marker, query) ->
  vectorize_devops_data w (get_devops_knowledgebase (knowledge_db w)) m
  = Ok done ->
  query_faiss_index_body (store w) m query = Raise e ->
  main w (Some input_query) = {| returned := Ok []; printed := [] |}
  /\ forall request,
       Api.issue request = input_query ->
       Api.analyze_devops_issue w request = Ok [].
Proof.
  intros M A V Q.
  assert (R : main w (Some input_query)
              = {| returned := Ok []; printed := [] |}).
  { unfold main, main_body.
    rewrite M; cbn [bind]; rewrite A; cbn [bind]; rewrite V; cbn [bind].
    erewrite query_faiss_index_handles by exact Q.
    reflexivity. }
  split; [exact R|].
  intros request <-.
  unfold Api.analyze_devops_issue; rewrite R; reflexivity.
Qed.

Lemma main_is_silent_without_retrieval_witness :
  main world_without_index (Some (lit "build failed"))
  = {| returned := Ok []; printed := [] |}
  /\ forall request,
       Api.issue request = lit "build failed" ->
       Api.analyze_devops_issue world_without_index request = Ok [].
Proof.
  apply (main_is_silent_without_retrieval world_without_index
           (lit "build failed") tt UserInput (lit "build failed") tt
           (FileNotFoundError "faiss_index_devops_docs.index")).
  - reflexivity.
  - reflexivity.
  - reflexivity.
  - reflexivity.
Defined.
